(** * drivers/input/keycombo.c: the key-combination detector

    A shallow embedding of the input handler of the keycombo driver
    ([keycombo_event], [do_key_down], [do_key_up], [keycombo_connect] and
    [keycombo_probe] from the allocation of the state on) and the
    properties of its counters, its phase flag and the order of its
    callbacks.  Driver code runs in a small monad that threads the state
    of the kernel and logs every call that leaves the driver; the
    properties of one call hold for every kernel, the order of the
    callbacks is proved against a model of the ordered work queue. *)

From Stdlib Require Import ZArith List Bool Lia FinFun.
From Stdlib Require String.
Import ListNotations String.StringSyntax.
Local Open Scope Z_scope.
Delimit Scope string_scope with string.

(** ** Machine integers and bitmaps *)

(** [int] arithmetic of the kernel build wraps around on 32 bits. *)
Definition INT_MAX : Z := 2147483647.

Definition sint32 (z : Z) : Z := (z + 2 ^ 31) mod 2 ^ 32 - 2 ^ 31.

Definition in_int (z : Z) : Prop := - 2 ^ 31 <= z <= INT_MAX.

(** Modelled from the spec: the bitmap helpers [test_bit], [__set_bit] and
    [__change_bit] of the kernel's bitops headers are not part of the
    source file; a bitmap ([unsigned long] array) is the integer whose
    binary digits are its bits, membership is the digit test, [__set_bit]
    turns one digit on and [__change_bit] flips one digit. *)
Definition test_bit (nr : Z) (addr : Z) : bool := Z.testbit addr nr.

Definition __set_bit (nr : Z) (addr : Z) : Z := Z.lor addr (Z.shiftl 1 nr).

Definition __change_bit (nr : Z) (addr : Z) : Z := Z.lxor addr (Z.shiftl 1 nr).

(** ** The driver's state: [struct keycombo_state] *)

(** The two function pointers are kept as "is it non-NULL"; the embedded
    kernel objects (lock, work items, wake-up sources) live in the kernel
    state, see [Kernel] below. *)
Record keycombo_state : Type := mk_state {
  keybit : Z;
  upbit : Z;
  key : Z;
  key_down_target : Z;
  key_down : Z;
  key_up : Z;
  delay : Z;
  key_up_fn : bool;
  key_down_fn : bool;
  key_is_down : Z
}.

Definition set_key (v : Z) (s : keycombo_state) : keycombo_state :=
  mk_state (keybit s) (upbit s) v (key_down_target s) (key_down s) (key_up s)
           (delay s) (key_up_fn s) (key_down_fn s) (key_is_down s).

Definition set_key_down (v : Z) (s : keycombo_state) : keycombo_state :=
  mk_state (keybit s) (upbit s) (key s) (key_down_target s) v (key_up s)
           (delay s) (key_up_fn s) (key_down_fn s) (key_is_down s).

Definition set_key_up (v : Z) (s : keycombo_state) : keycombo_state :=
  mk_state (keybit s) (upbit s) (key s) (key_down_target s) (key_down s) v
           (delay s) (key_up_fn s) (key_down_fn s) (key_is_down s).

Definition set_key_is_down (v : Z) (s : keycombo_state) : keycombo_state :=
  mk_state (keybit s) (upbit s) (key s) (key_down_target s) (key_down s)
           (key_up s) (delay s) (key_up_fn s) (key_down_fn s) v.

Definition set_keybit (v : Z) (s : keycombo_state) : keycombo_state :=
  mk_state v (upbit s) (key s) (key_down_target s) (key_down s) (key_up s)
           (delay s) (key_up_fn s) (key_down_fn s) (key_is_down s).

Definition set_upbit (v : Z) (s : keycombo_state) : keycombo_state :=
  mk_state (keybit s) v (key s) (key_down_target s) (key_down s) (key_up s)
           (delay s) (key_up_fn s) (key_down_fn s) (key_is_down s).

Definition set_key_down_target (v : Z) (s : keycombo_state) : keycombo_state :=
  mk_state (keybit s) (upbit s) (key s) v (key_down s) (key_up s)
           (delay s) (key_up_fn s) (key_down_fn s) (key_is_down s).

(** ** Calls that leave the driver *)

Inductive wakeup_source : Type :=
| combo_held_wake_source
| combo_up_wake_source.

Inductive callback : Type :=
| on_key_down   (* state->key_down_fn(state->priv) *)
| on_key_up.    (* state->key_up_fn(state->priv) *)

(** Calls without a result the driver looks at. *)
Inductive vcall : Type :=
| spin_lock_irqsave
| spin_unlock_irqrestore
| __pm_stay_awake (ws : wakeup_source)
| __pm_relax (ws : wakeup_source)
| pr_debug
| invoke (f : callback).

(** Calls whose boolean result the driver branches on. *)
Inductive bcall : Type :=
| queue_delayed_work (dly : Z)   (* on state->wq, &state->key_down_work *)
| cancel_delayed_work            (* &state->key_down_work *)
| queue_work.                    (* on state->wq, &state->key_up_work *)

(** One entry of the log of what a piece of driver code did. *)
Inductive kevent : Type :=
| Did (c : vcall)
| Got (c : bcall) (r : bool).

(** The kernel behind the calls: any type of kernel states with an
    answer to every call. *)
Class Kernel (K : Type) : Type := {
  kvoid : vcall -> K -> K;
  kbool : bcall -> K -> bool * K
}.

(** Driver code threads the kernel state and appends to the log. *)
Definition M (K A : Type) : Type := K -> A * K * list kevent.

Definition ret {K A : Type} (a : A) : M K A := fun k => (a, k, []).

Definition bind {K A B : Type} (m : M K A) (f : A -> M K B) : M K B :=
  fun k =>
    let '(a, k1, l1) := m k in
    let '(b, k2, l2) := f a k1 in
    (b, k2, l1 ++ l2).

Definition call {K : Type} `{Kernel K} (c : vcall) : M K unit :=
  fun k => (tt, kvoid c k, [Did c]).

Definition ask {K : Type} `{Kernel K} (c : bcall) : M K bool :=
  fun k => let '(r, k1) := kbool c k in (r, k1, [Got c r]).

Notation "x <- m ;; f" := (bind m (fun x => f))
  (at level 61, m at next level, right associativity).
Notation "m ;;; f" := (bind m (fun _ => f))
  (at level 61, right associativity).

Definition result_state {K A : Type} (r : A * K * list kevent) : A := fst (fst r).
Definition result_kernel {K A : Type} (r : A * K * list kevent) : K := snd (fst r).
Definition result_log {K A : Type} (r : A * K * list kevent) : list kevent := snd r.

(** ** Constants of the headers *)

(** Constants of <linux/input.h> and <linux/errno.h> and the conversion
    [msecs_to_jiffies], which the source file uses but does not define:
    the development is parametric in them. *)
Class Headers : Type := {
  KEY_MAX : Z;
  EV_KEY : Z;
  ENODEV : Z;
  ENOMEM : Z;
  msecs_to_jiffies : Z -> Z
}.

(** The values of the msm8996 tree (KEY_MAX is 0x2ff), used only to run
    the definitions on concrete inputs.  The jiffies are those of
    HZ = 100: a negative [int] means no timeout (MAX_JIFFY_OFFSET, on 64
    bits), any other number of milliseconds is rounded up to whole
    jiffies of 10 ms. *)
Definition msm8996_headers : Headers :=
  {| KEY_MAX := 767; EV_KEY := 1; ENODEV := 19; ENOMEM := 12;
     msecs_to_jiffies :=
       fun m => if sint32 m <? 0 then 2 ^ 62 - 2 else (m + 9) / 10 |}.

(** ** The handler *)

Section Keycombo.

Context {hdr : Headers} {K : Type} {kern : Kernel K}.

(** [state->key_down == state->key_down_target && state->key_up == 0] *)
Definition combo_complete (state : keycombo_state) : bool :=
  (key_down state =? key_down_target state) && (key_up state =? 0).

(** Lines 89-100: flip the pressed bit and adjust one counter. *)
Definition account (code value : Z) (state : keycombo_state) : keycombo_state :=
  let state := set_key (__change_bit code (key state)) state in
  if test_bit code (upbit state) then
    if negb (value =? 0) then set_key_up (sint32 (key_up state + 1)) state
    else set_key_up (sint32 (key_up state - 1)) state
  else
    if negb (value =? 0) then set_key_down (sint32 (key_down state + 1)) state
    else set_key_down (sint32 (key_down state - 1)) state.

(** Lines 101-114: the phase transition and its side effects. *)
Definition transition (state : keycombo_state) : M K keycombo_state :=
  if combo_complete state then
    call (__pm_stay_awake combo_held_wake_source) ;;;
    let state := set_key_is_down 1 state in
    queued <- ask (queue_delayed_work (delay state)) ;;
    (if queued then call pr_debug else ret tt) ;;;
    ret state
  else if negb (key_is_down state =? 0) then
    cancelled <- ask cancel_delayed_work ;;
    (if negb cancelled then
       call (__pm_stay_awake combo_up_wake_source) ;;;
       _ <- ask queue_work ;;
       ret tt
     else ret tt) ;;;
    call (__pm_relax combo_held_wake_source) ;;;
    ret (set_key_is_down 0 state)
  else ret state.

(** [keycombo_event(handle, type, code, value)] with
    [state = handle->private]; [type] and [code] are [unsigned int],
    [value] is [int]. *)
Definition keycombo_event (state : keycombo_state) (type code value : Z)
  : M K keycombo_state :=
  if negb (type =? EV_KEY) then ret state
  else if code >=? KEY_MAX then ret state
  else if negb (test_bit code (keybit state)) then ret state
  else
    call spin_lock_irqsave ;;;
    state <- (if Bool.eqb (negb (test_bit code (key state))) (value =? 0)
              then ret state
              else transition (account code value state)) ;;
    call spin_unlock_irqrestore ;;;
    ret state.

(** The two work functions. *)
Definition do_key_down (state : keycombo_state) : M K unit :=
  if key_down_fn state then call (invoke on_key_down) else ret tt.

Definition do_key_up (state : keycombo_state) : M K unit :=
  (if key_up_fn state then call (invoke on_key_up) else ret tt) ;;;
  call (__pm_relax combo_up_wake_source).

End Keycombo.

(** ** Attaching to a device: [keycombo_connect] *)

Inductive connect_call : Type :=
| kzalloc_handle (ok : bool)
| input_register_handle (r : Z)
| input_open_device (r : Z)
| input_unregister_handle
| kfree_handle.

(** What the allocator and the input core answer during one connect. *)
Record connect_env : Type := {
  handle_allocated : bool;
  register_handle_ret : Z;
  open_device_ret : Z
}.

Section Connect.

Context {hdr : Headers}.

(** The loop of lines 128-131 started at [i] with [n] iterations left;
    its value is [i] when the loop is left. *)
Fixpoint connect_scan (n : nat) (i : Z) (state_keybit dev_keybit : Z) : Z :=
  match n with
  | O => i
  | S n' =>
      if test_bit i state_keybit && test_bit i dev_keybit then i
      else connect_scan n' (i + 1) state_keybit dev_keybit
  end.

Definition keycombo_connect (state : keycombo_state) (dev_keybit : Z)
    (env : connect_env) : Z * list connect_call :=
  let i := connect_scan (Z.to_nat KEY_MAX) 0 (keybit state) dev_keybit in
  if i =? KEY_MAX then (- ENODEV, [])
  else if negb (handle_allocated env) then (- ENOMEM, [kzalloc_handle false])
  else
    let ret := register_handle_ret env in
    if negb (ret =? 0) then
      (ret, [kzalloc_handle true; input_register_handle ret; kfree_handle])
    else
      let ret := open_device_ret env in
      if negb (ret =? 0) then
        (ret, [kzalloc_handle true; input_register_handle 0;
               input_open_device ret; input_unregister_handle; kfree_handle])
      else
        (0, [kzalloc_handle true; input_register_handle 0;
             input_open_device 0]).

End Connect.

(** ** Construction: [keycombo_probe] *)

(** [struct keycombo_platform_data]: the key arrays are the contents of
    the [int] arrays the pointers address; [keys_up] may be NULL. *)
Record keycombo_platform_data : Type := {
  pdata_key_down_fn : bool;
  pdata_key_up_fn : bool;
  key_down_delay : Z;
  keys_up : option (list Z);
  keys_down : list Z
}.

(** What the allocators and the input core answer during one probe. *)
Record probe_env : Type := {
  state_allocated : bool;
  workqueue_allocated : bool;
  register_handler_ret : Z
}.

Inductive probe_result : Type :=
| Probed (state : keycombo_state)   (* returns 0, state is the driver data *)
| Failed (ret : Z)                  (* returns ret, nothing is left behind *)
| Fault.                            (* an access outside an array or bitmap *)

(** [kzalloc(sizeof( *state))] *)
Definition zeroed_state : keycombo_state :=
  mk_state 0 0 0 0 0 0 0 false false 0.

Section Probe.

Context {hdr : Headers}.

(** Lines 300-306: [while ((key = *keyp++))] over the down keys.  Reading
    past the end of the array, or setting a bit of negative index, is
    outside what C defines. *)
Fixpoint scan_keys_down (keyp : list Z) (state : keycombo_state)
  : option keycombo_state :=
  match keyp with
  | [] => None
  | key :: keyp =>
      if key =? 0 then Some state
      else if key >=? KEY_MAX then scan_keys_down keyp state
      else if key <? 0 then None
      else
        let state :=
          set_key_down_target (sint32 (key_down_target state + 1)) state in
        let state := set_keybit (__set_bit key (keybit state)) state in
        scan_keys_down keyp state
  end.

(** Lines 308-314: the same loop over the up keys. *)
Fixpoint scan_keys_up (keyp : list Z) (state : keycombo_state)
  : option keycombo_state :=
  match keyp with
  | [] => None
  | key :: keyp =>
      if key =? 0 then Some state
      else if key >=? KEY_MAX then scan_keys_up keyp state
      else if key <? 0 then None
      else
        let state := set_keybit (__set_bit key (keybit state)) state in
        let state := set_upbit (__set_bit key (upbit state)) state in
        scan_keys_up keyp state
  end.

(** [keycombo_probe] from line 292 on; [pdata] is what lines 270-290
    obtained ([None] when they failed, which returns -ENOMEM). *)
Definition keycombo_probe (pdata : option keycombo_platform_data)
    (env : probe_env) : probe_result :=
  match pdata with
  | None => Failed (- ENOMEM)
  | Some pdata =>
      if negb (state_allocated env) then Failed (- ENOMEM)
      else
        match scan_keys_down (keys_down pdata) zeroed_state with
        | None => Fault
        | Some state =>
            match
              match keys_up pdata with
              | Some keyp => scan_keys_up keyp state
              | None => Some state
              end
            with
            | None => Fault
            | Some state =>
                if negb (workqueue_allocated env) then Failed (- ENOMEM)
                else
                  let state :=
                    mk_state (keybit state) (upbit state) (key state)
                      (key_down_target state) (key_down state) (key_up state)
                      (msecs_to_jiffies (key_down_delay pdata))
                      (pdata_key_up_fn pdata) (pdata_key_down_fn pdata)
                      (key_is_down state) in
                  let ret := register_handler_ret env in
                  if negb (ret =? 0) then Failed ret else Probed state
            end
        end
  end.

End Probe.

(** ** A model of the work queue, the timer and the wake-up sources *)

Inductive work : Type :=
| key_down_work   (* the delayed work, runs do_key_down *)
| key_up_work.    (* the immediate work, runs do_key_up *)

Definition work_eqb (a b : work) : bool :=
  match a, b with
  | key_down_work, key_down_work => true
  | key_up_work, key_up_work => true
  | _, _ => false
  end.

Definition queued (w : work) (l : list work) : bool := existsb (work_eqb w) l.

Definition dequeue (w : work) (l : list work) : list work :=
  filter (fun x => negb (work_eqb w x)) l.

(** Modelled from the spec: the ordered work queue, its timer and the
    wake-up sources belong to the kernel, not to the source file.  One
    worker takes the queued works in submission order, one at a time; the
    delayed work waits for its timer and is then appended to the queue; a
    work is pending from its submission until the worker takes it;
    submitting a pending work does nothing and answers false; cancelling
    answers true exactly when the work was still pending, and withdraws
    it. *)
Record kernel : Type := mk_kernel {
  lock_taken : bool;
  held_awake : bool;             (* combo_held_wake_source is active *)
  up_awake : bool;               (* combo_up_wake_source is active *)
  timer_pending : bool;          (* key_down_work waits for its delay *)
  worklist : list work;          (* submitted, not yet taken by the worker *)
  current : option work          (* taken by the worker, function not run yet *)
}.

Definition kernel_void (c : vcall) (k : kernel) : kernel :=
  match c with
  | spin_lock_irqsave =>
      mk_kernel true (held_awake k) (up_awake k) (timer_pending k)
                (worklist k) (current k)
  | spin_unlock_irqrestore =>
      mk_kernel false (held_awake k) (up_awake k) (timer_pending k)
                (worklist k) (current k)
  | __pm_stay_awake combo_held_wake_source =>
      mk_kernel (lock_taken k) true (up_awake k) (timer_pending k)
                (worklist k) (current k)
  | __pm_stay_awake combo_up_wake_source =>
      mk_kernel (lock_taken k) (held_awake k) true (timer_pending k)
                (worklist k) (current k)
  | __pm_relax combo_held_wake_source =>
      mk_kernel (lock_taken k) false (up_awake k) (timer_pending k)
                (worklist k) (current k)
  | __pm_relax combo_up_wake_source =>
      mk_kernel (lock_taken k) (held_awake k) false (timer_pending k)
                (worklist k) (current k)
  | pr_debug => k
  | invoke _ => k
  end.

Definition kernel_bool (c : bcall) (k : kernel) : bool * kernel :=
  match c with
  | queue_delayed_work dly =>
      if timer_pending k || queued key_down_work (worklist k) then (false, k)
      else if dly =? 0 then
        (true, mk_kernel (lock_taken k) (held_awake k) (up_awake k) false
                         (worklist k ++ [key_down_work]) (current k))
      else
        (true, mk_kernel (lock_taken k) (held_awake k) (up_awake k) true
                         (worklist k) (current k))
  | cancel_delayed_work =>
      if timer_pending k || queued key_down_work (worklist k) then
        (true, mk_kernel (lock_taken k) (held_awake k) (up_awake k) false
                         (dequeue key_down_work (worklist k)) (current k))
      else (false, k)
  | queue_work =>
      if queued key_up_work (worklist k) then (false, k)
      else
        (true, mk_kernel (lock_taken k) (held_awake k) (up_awake k)
                         (timer_pending k) (worklist k ++ [key_up_work])
                         (current k))
  end.

#[export] Instance kernel_model : Kernel kernel :=
  {| kvoid := kernel_void; kbool := kernel_bool |}.

Definition idle_kernel : kernel := mk_kernel false false false false [] None.

(** ** The driver and the kernel together *)

(** One instance: the driver state, the kernel state, the log of all the
    calls made so far and the works whose function has run, oldest
    first. *)
Record system : Type := mk_system {
  drv : keycombo_state;
  krn : kernel;
  calls : list kevent;
  ran : list work
}.

(** What can happen to an instance. *)
Inductive action : Type :=
| input_event (type code value : Z)   (* the input core calls keycombo_event *)
| timer_expires                       (* the delay of key_down_work is over *)
| worker_takes                        (* the worker takes the next work *)
| worker_runs.                        (* the worker runs the function of the work it took *)

Section System.

Context {hdr : Headers}.

Definition step (sys : system) (a : action) : system :=
  match a with
  | input_event type code value =>
      let '(state, k, l) := keycombo_event (drv sys) type code value (krn sys) in
      mk_system state k (calls sys ++ l) (ran sys)
  | timer_expires =>
      let k := krn sys in
      if timer_pending k then
        mk_system (drv sys)
          (mk_kernel (lock_taken k) (held_awake k) (up_awake k) false
                     (worklist k ++ [key_down_work]) (current k))
          (calls sys) (ran sys)
      else sys
  | worker_takes =>
      let k := krn sys in
      match current k, worklist k with
      | None, w :: rest =>
          mk_system (drv sys)
            (mk_kernel (lock_taken k) (held_awake k) (up_awake k)
                       (timer_pending k) rest (Some w))
            (calls sys) (ran sys)
      | _, _ => sys
      end
  | worker_runs =>
      let k := krn sys in
      match current k with
      | Some w =>
          let k := mk_kernel (lock_taken k) (held_awake k) (up_awake k)
                             (timer_pending k) (worklist k) None in
          let '(_, k, l) :=
            match w with
            | key_down_work => do_key_down (drv sys) k
            | key_up_work => do_key_up (drv sys) k
            end in
          mk_system (drv sys) k (calls sys ++ l) (ran sys ++ [w])
      | None => sys
      end
  end.

Definition run (sys : system) (l : list action) : system := fold_left step l sys.

End System.

(** The callbacks among the logged calls, oldest first. *)
Fixpoint callbacks (l : list kevent) : list callback :=
  match l with
  | [] => []
  | Did (invoke f) :: l => f :: callbacks l
  | _ :: l => callbacks l
  end.

Definition other (f : callback) : callback :=
  match f with
  | on_key_down => on_key_up
  | on_key_up => on_key_down
  end.

(** [alternates f l]: [l] is f, other f, f, ... *)
Inductive alternates : callback -> list callback -> Prop :=
| alternates_nil : forall f, alternates f []
| alternates_cons : forall f l, alternates (other f) l -> alternates f (f :: l).

(** The instance [keycombo_probe] leaves behind, before any event. *)
Definition fresh (state : keycombo_state) : system :=
  mk_system state idle_kernel [] [].

(** ** Vocabulary of the properties *)

Section Vocabulary.

Context {hdr : Headers}.

(** The key codes the handler lets through: 0 .. KEY_MAX-1. *)
Definition codes : list Z := map Z.of_nat (seq 0 (Z.to_nat KEY_MAX)).

(** A down key is a tracked key that is not an up key (the test of line 90). *)
Definition is_down_key (state : keycombo_state) (c : Z) : bool :=
  test_bit c (keybit state) && negb (test_bit c (upbit state)).

Definition is_up_key (state : keycombo_state) (c : Z) : bool :=
  test_bit c (upbit state).

(** How many keys of a set have their bit set in the bitmap [pressed]. *)
Definition pressed_count (member : Z -> bool) (pressed : Z) : Z :=
  Z.of_nat (length (filter (fun c => member c && test_bit c pressed) codes)).

(** The counters agree with the pressed bits of [state->key]. *)
Definition counters_agree (state : keycombo_state) : Prop :=
  key_down state = pressed_count (is_down_key state) (key state) /\
  key_up state = pressed_count (is_up_key state) (key state).

(** The all-zero state of a new instance: nothing pressed, counters and
    phase zero; the key sets, the target and the delay are the
    configuration. *)
Definition initial (state : keycombo_state) : Prop :=
  key state = 0 /\ key_down state = 0 /\ key_up state = 0 /\
  key_is_down state = 0.

(** Does the event get past the four early exits of [keycombo_event]? *)
Definition accepted (state : keycombo_state) (type code value : Z) : bool :=
  (type =? EV_KEY) && negb (code >=? KEY_MAX) &&
  test_bit code (keybit state) &&
  negb (Bool.eqb (negb (test_bit code (key state))) (value =? 0)).

(** The driver state [transition] returns, whatever the kernel answers. *)
Definition settle (state : keycombo_state) : keycombo_state :=
  if combo_complete state then set_key_is_down 1 state
  else if negb (key_is_down state =? 0) then set_key_is_down 0 state
  else state.

Definition next_state (state : keycombo_state) (type code value : Z)
  : keycombo_state :=
  if accepted state type code value then settle (account code value state)
  else state.

Context {K : Type} {kern : Kernel K}.

(** The states some sequence of [keycombo_event] calls leads to from
    [s0]; the kernel state of every call is arbitrary, so whatever the
    worker and the timer do between two calls is covered. *)
Inductive reachable (s0 : keycombo_state) : keycombo_state -> Prop :=
| reachable_start : reachable s0 s0
| reachable_event : forall state type code value (k : K),
    reachable s0 state ->
    reachable s0 (result_state (keycombo_event state type code value k)).

End Vocabulary.

(** ** Vocabulary of the callback order *)

Definition work_callback (w : work) : callback :=
  match w with
  | key_down_work => on_key_down
  | key_up_work => on_key_up
  end.

Definition other_work (w : work) : work :=
  match w with
  | key_down_work => key_up_work
  | key_up_work => key_down_work
  end.

(** Reading a sequence of works while expecting them in turns: the work
    expected next, or [None] once a work came out of turn. *)
Definition expect_step (e : option work) (w : work) : option work :=
  match e with
  | Some e => if work_eqb e w then Some (other_work e) else None
  | None => None
  end.

Definition expected_after (l : list work) (e : option work) : option work :=
  fold_left expect_step l e.

(** The works submitted and not yet run, in the order they will run: the
    one the worker holds, the queue, the delayed work behind its timer. *)
Definition in_flight (k : kernel) : list work :=
  match current k with Some w => [w] | None => [] end ++
  worklist k ++
  (if timer_pending k then [key_down_work] else []).

(** The queue and the timer hold at most one key-up work and, behind it,
    at most one key-down work. *)
Definition pending_ok (k : kernel) : Prop :=
  match worklist k, timer_pending k with
  | [], _ => True
  | [key_down_work], false => True
  | [key_up_work], _ => True
  | [key_up_work; key_down_work], false => True
  | _, _ => False
  end.

(** What do_key_down and do_key_up let the client hear, given which
    function pointers are set. *)
Definition heard (dn up : bool) (w : work) : list callback :=
  match w with
  | key_down_work => if dn then [on_key_down] else []
  | key_up_work => if up then [on_key_up] else []
  end.

Section SystemVocabulary.

Context {hdr : Headers}.

(** The invariant of one instance: the works run so far followed by the
    works in flight come in turns, key-down first, and the last of them
    is a key-down work exactly while the phase flag is set; the flag is
    set only while the combo condition holds; the callbacks logged are
    those of the works run. *)
Definition system_ok (dn up : bool) (sys : system) : Prop :=
  pending_ok (krn sys) /\
  expected_after (ran sys ++ in_flight (krn sys)) (Some key_down_work) =
    Some (if key_is_down (drv sys) =? 0 then key_down_work else key_up_work) /\
  (key_is_down (drv sys) <> 0 -> combo_complete (drv sys) = true) /\
  key_down_fn (drv sys) = dn /\ key_up_fn (drv sys) = up /\
  callbacks (calls sys) = flat_map (heard dn up) (ran sys).

End SystemVocabulary.

(** ** Vocabulary of construction *)

Section ProbeVocabulary.

Context {hdr : Headers}.

(** The array [arr] holds the keys [keys], all positive, and then the
    terminating 0. *)
Definition terminated (arr keys : list Z) : Prop :=
  (exists rest, arr = keys ++ 0 :: rest) /\ Forall (fun k => 0 < k) keys.

(** The keys of a list the loops of [keycombo_probe] do not skip. *)
Definition kept (keys : list Z) : list Z :=
  filter (fun k => k <? KEY_MAX) keys.

Definition listed (c : Z) (keys : list Z) : bool := existsb (Z.eqb c) keys.

End ProbeVocabulary.

(** ** A sample configuration *)

(** Power (116) and volume-down (114) held while volume-up (115) is
    released, half a second of delay, both callbacks set. *)
Definition sample_pdata : keycombo_platform_data :=
  {| pdata_key_down_fn := true; pdata_key_up_fn := true;
     key_down_delay := 500;
     keys_up := Some [115; 0];
     keys_down := [116; 114; 0] |}.

Definition sample_env : probe_env :=
  {| state_allocated := true; workqueue_allocated := true;
     register_handler_ret := 0 |}.

Definition sample_state : keycombo_state :=
  mk_state (2 ^ 116 + 2 ^ 115 + 2 ^ 114) (2 ^ 115) 0 2 0 0 50 true true 0.

(** The sample instance while power and volume-down are both held. *)
Definition sample_held_state : keycombo_state :=
  mk_state (2 ^ 116 + 2 ^ 115 + 2 ^ 114) (2 ^ 115) (2 ^ 116 + 2 ^ 114)
           2 2 0 50 true true 1.

(** A configuration without down keys, and one that names power (116)
    in both lists. *)
Definition empty_pdata : keycombo_platform_data :=
  {| pdata_key_down_fn := true; pdata_key_up_fn := true;
     key_down_delay := 500; keys_up := None; keys_down := [0] |}.

Definition overlap_pdata : keycombo_platform_data :=
  {| pdata_key_down_fn := true; pdata_key_up_fn := true;
     key_down_delay := 500;
     keys_up := Some [116; 0];
     keys_down := [116; 114; 0] |}.

(** A reset-style configuration: power alone, only the key-down function
    set; and the moves of one press held past the delay, a release, and a
    second press held past the delay. *)
Definition reset_pdata : keycombo_platform_data :=
  {| pdata_key_down_fn := true; pdata_key_up_fn := false;
     key_down_delay := 500; keys_up := None; keys_down := [116; 0] |}.

Definition reset_state : keycombo_state :=
  mk_state (2 ^ 116) 0 0 1 0 0 50 false true 0.

Definition press_release_press : list action :=
  [input_event 1 116 1; timer_expires; worker_takes; worker_runs;
   input_event 1 116 0; worker_takes; worker_runs;
   input_event 1 116 1; timer_expires; worker_takes; worker_runs].

(** ** Vocabulary of the further properties *)

(** The calls [keycombo_event] may make while it holds the lock: anything
    but the lock itself and the client's callbacks. *)
Definition inside_lock (e : kevent) : bool :=
  match e with
  | Did spin_lock_irqsave => false
  | Did spin_unlock_irqrestore => false
  | Did (invoke _) => false
  | _ => true
  end.

(** A submission of work that found the work already pending. *)
Definition submitted (e : kevent) : bool :=
  match e with
  | Got (queue_delayed_work _) r => r
  | Got queue_work r => r
  | _ => true
  end.

(** The bookkeeping of the kernel objects of one instance: the lock is
    free between two steps, the held wake-up source is active exactly while
    the phase flag is set, the releasing one exactly while a key-up work
    is in flight, and no submission so far found its work pending. *)
Definition wake_ok (sys : system) : Prop :=
  lock_taken (krn sys) = false /\
  held_awake (krn sys) = negb (key_is_down (drv sys) =? 0) /\
  up_awake (krn sys) = queued key_up_work (in_flight (krn sys)) /\
  forallb submitted (calls sys) = true.

(** ** Detaching from a device: [keycombo_disconnect] *)

(** The calls made on a handle over its life: those of
    [keycombo_connect], and the closing of the device. *)
Inductive handle_call : Type :=
| during_connect (c : connect_call)
| input_close_device.

(** [keycombo_disconnect(handle)]: close, unregister, free. *)
Definition keycombo_disconnect : list handle_call :=
  [input_close_device; during_connect input_unregister_handle;
   during_connect kfree_handle].

(** What is held on behalf of a handle. *)
Record handle_ledger : Type := mk_ledger {
  handle_live : bool;         (* allocated and not freed *)
  handle_registered : bool;   (* registered with the input core *)
  device_open : bool          (* the device is open through the handle *)
}.

(** The effect of one call on the ledger; [None] when the call is out of
    order: a handle allocated over a live one, registered or freed while
    not live, opened or unregistered while not registered, freed while
    still registered, unregistered while still open. *)
Definition ledger_step (l : option handle_ledger) (c : handle_call)
  : option handle_ledger :=
  match l with
  | None => None
  | Some l =>
      match c with
      | during_connect (kzalloc_handle ok) =>
          if handle_live l then None
          else Some (mk_ledger ok (handle_registered l) (device_open l))
      | during_connect (input_register_handle r) =>
          if handle_live l && negb (handle_registered l)
          then Some (mk_ledger true (r =? 0) (device_open l))
          else None
      | during_connect (input_open_device r) =>
          if handle_registered l && negb (device_open l)
          then Some (mk_ledger (handle_live l) true (r =? 0))
          else None
      | input_close_device =>
          if device_open l
          then Some (mk_ledger (handle_live l) (handle_registered l) false)
          else None
      | during_connect input_unregister_handle =>
          if handle_registered l && negb (device_open l)
          then Some (mk_ledger (handle_live l) false false)
          else None
      | during_connect kfree_handle =>
          if handle_live l && negb (handle_registered l)
          then Some (mk_ledger false false false)
          else None
      end
  end.

Definition ledger_after (calls : list handle_call) (l : option handle_ledger)
  : option handle_ledger :=
  fold_left ledger_step calls l.

Definition nothing_held : handle_ledger := mk_ledger false false false.

Definition attached : handle_ledger := mk_ledger true true true.

(** ** Configuration from the device tree: [keycombo_parse_dt] *)

(** What the device-tree helpers answer for one node: the value
    [of_property_read_u32] stores ([None] when it fails), the length in
    bytes of the property [of_find_property] finds ([None] for NULL), and
    the cells [of_property_read_u32_array] stores for a name and a count
    ([None] when it fails). *)
Record device_node : Type := {
  of_property_read_u32 : String.string -> option Z;
  of_find_property : String.string -> option Z;
  of_property_read_u32_array : String.string -> Z -> option (list Z)
}.

Inductive key_array : Type :=
| keys_down_array
| keys_up_array.

Inductive parse_call : Type :=
| kzalloc_keys (a : key_array) (size : Z) (ok : bool)
| kfree_keys (a : key_array).

(** Whether the two allocations of one parse succeed. *)
Record parse_env : Type := {
  keys_down_allocated : bool;
  keys_up_allocated : bool
}.

(** [kzalloc(sizeof(struct keycombo_platform_data))]: all fields zero;
    the NULL key array has no cell to read. *)
Definition kzalloced_pdata : keycombo_platform_data :=
  {| pdata_key_down_fn := false; pdata_key_up_fn := false;
     key_down_delay := 0; keys_up := None; keys_down := [] |}.

Definition set_key_down_delay (v : Z) (p : keycombo_platform_data)
  : keycombo_platform_data :=
  {| pdata_key_down_fn := pdata_key_down_fn p;
     pdata_key_up_fn := pdata_key_up_fn p;
     key_down_delay := v; keys_up := keys_up p; keys_down := keys_down p |}.

Definition set_keys_down (v : list Z) (p : keycombo_platform_data)
  : keycombo_platform_data :=
  {| pdata_key_down_fn := pdata_key_down_fn p;
     pdata_key_up_fn := pdata_key_up_fn p;
     key_down_delay := key_down_delay p; keys_up := keys_up p;
     keys_down := v |}.

Definition set_keys_up (v : option (list Z)) (p : keycombo_platform_data)
  : keycombo_platform_data :=
  {| pdata_key_down_fn := pdata_key_down_fn p;
     pdata_key_up_fn := pdata_key_up_fn p;
     key_down_delay := key_down_delay p; keys_up := v;
     keys_down := keys_down p |}.

(** The arrays allocated and not freed again, latest first. *)
Fixpoint outstanding (calls : list parse_call) (held : list key_array)
  : list key_array :=
  match calls with
  | [] => held
  | kzalloc_keys a _ true :: calls => outstanding calls (a :: held)
  | kzalloc_keys _ _ false :: calls => outstanding calls held
  | kfree_keys a :: calls =>
      outstanding calls
        (filter (fun b => match a, b with
                          | keys_down_array, keys_down_array => false
                          | keys_up_array, keys_up_array => false
                          | _, _ => true
                          end) held)
  end.

(** The [int] the key loops of [keycombo_probe] read through
    [int *keyp] from a cell the parser stored as u32: a cell of 2^31 or
    more reads as the negative number 2^32 below it (a value that is no
    u32 cell is left as it is). *)
Definition int_of_u32 (c : Z) : Z :=
  if (2 ^ 31 <=? c) && (c <? 2 ^ 32) then c - 2 ^ 32 else c.

(** The parsed platform data as [keycombo_probe] reads it. *)
Definition read_as_int (p : keycombo_platform_data) : keycombo_platform_data :=
  {| pdata_key_down_fn := pdata_key_down_fn p;
     pdata_key_up_fn := pdata_key_up_fn p;
     key_down_delay := key_down_delay p;
     keys_up := option_map (map int_of_u32) (keys_up p);
     keys_down := map int_of_u32 (keys_down p) |}.

(** [struct platform_device], as far as [keycombo_probe] looks at it. *)
Record platform_device : Type := {
  of_node : option device_node;
  platform_data : option keycombo_platform_data
}.

Section ParseDt.

Context {hdr : Headers}.

(** The error number of <linux/errno.h> that only the parser uses. *)
Variable EINVAL : Z.

(** The property names: [parser_st] after lines 173-179. *)
Definition parser_st (vzw_key_flag : Z)
  : String.string * String.string * String.string :=
  if negb (vzw_key_flag =? 0)
  then ("key_down_delay"%string, "vzw_keys_down"%string, "vzw_keys_up"%string)
  else ("key_down_delay"%string, "keys_down"%string, "keys_up"%string).

(** [keycombo_parse_dt(dt, pdata)]: the return value, [*pdata] afterwards
    and the allocator calls made; [sizeof(uint32_t)] is 4. *)
Definition keycombo_parse_dt (vzw_key_flag : Z) (dt : device_node)
    (pdata : keycombo_platform_data) (env : parse_env)
  : Z * keycombo_platform_data * list parse_call :=
  let '(st0, st1, st2) := parser_st vzw_key_flag in
  let pdata :=
    match of_property_read_u32 dt st0 with
    | Some v => set_key_down_delay v pdata
    | None => pdata
    end in
  match of_find_property dt st1 with
  | None => (- EINVAL, pdata, [])
  | Some len =>
      let num_keys := len / 4 in
      if negb (keys_down_allocated env) then
        (- ENOMEM, pdata, [kzalloc_keys keys_down_array (num_keys * 4) false])
      else
        let down := kzalloc_keys keys_down_array (num_keys * 4) true in
        match of_property_read_u32_array dt st1 num_keys with
        | None => (- EINVAL, pdata, [down; kfree_keys keys_down_array])
        | Some cells =>
            let pdata := set_keys_down cells pdata in
            match of_find_property dt st2 with
            | None => (- EINVAL, pdata, [down; kfree_keys keys_down_array])
            | Some len =>
                let num_keys := len / 4 in
                if negb (keys_up_allocated env) then
                  (- ENOMEM, pdata,
                   [down; kzalloc_keys keys_up_array (num_keys * 4) false;
                    kfree_keys keys_down_array])
                else
                  let up := kzalloc_keys keys_up_array (num_keys * 4) true in
                  match of_property_read_u32_array dt st2 num_keys with
                  | None =>
                      (- EINVAL, pdata,
                       [down; up; kfree_keys keys_up_array;
                        kfree_keys keys_down_array])
                  | Some cells =>
                      (0, set_keys_up (Some cells) pdata, [down; up])
                  end
            end
        end
  end.

(** Lines 270-290 of [keycombo_probe]: the platform data, parsed from
    the device tree into a fresh allocation or taken from the device;
    [None] on the paths that return -ENOMEM.  The arrays the parser
    filled with u32 cells are the ones the key loops read as [int]. *)
Definition probe_pdata (vzw_key_flag : Z) (pdev : platform_device)
    (pdata_allocated : bool) (env : parse_env)
  : option keycombo_platform_data :=
  match of_node pdev with
  | Some dt =>
      if negb pdata_allocated then None
      else
        let '(ret, pdata, _) :=
          keycombo_parse_dt vzw_key_flag dt kzalloced_pdata env in
        if ret <? 0 then None else Some (read_as_int pdata)
  | None => platform_data pdev
  end.

(** [keycombo_probe(pdev)] as a whole. *)
Definition keycombo_probe_pdev (vzw_key_flag : Z) (pdev : platform_device)
    (pdata_allocated : bool) (penv : parse_env) (env : probe_env)
  : probe_result :=
  keycombo_probe (probe_pdata vzw_key_flag pdev pdata_allocated penv) env.

End ParseDt.

Section FaultVocabulary.

Context {hdr : Headers}.

(** The array has a 0 cell, and every cell before it is either skipped
    (KEY_MAX or more) or a valid bit index. *)
Definition well_terminated (arr : list Z) : Prop :=
  exists keys rest,
    arr = keys ++ 0 :: rest /\
    Forall (fun k => k <> 0 /\ (KEY_MAX <= k \/ 0 <= k)) keys.

End FaultVocabulary.

(** A device-tree node with the two key lists of the sample instance. *)
Definition sample_node : device_node :=
  {| of_property_read_u32 := fun _ => Some 500;
     of_find_property := fun _ => Some 8;
     of_property_read_u32_array := fun _ n => Some [116; 0] |}.

(** A reset-style node: power alone as down key, no up key. *)
Definition reset_node : device_node :=
  {| of_property_read_u32 := fun _ => Some 500;
     of_find_property :=
       fun name => if String.eqb name "keys_down" then Some 8 else Some 4;
     of_property_read_u32_array :=
       fun name n =>
         if String.eqb name "keys_down" then Some [116; 0] else Some [0] |}.

Definition reset_pdev : platform_device :=
  {| of_node := Some reset_node; platform_data := None |}.

(** The sample instance while only power is held. *)
Definition sample_half_state : keycombo_state :=
  mk_state (2 ^ 116 + 2 ^ 115 + 2 ^ 114) (2 ^ 115) (2 ^ 116)
           2 1 0 50 true true 0.

(** A platform device described by the sample node, and a node whose key
    lists carry no terminating 0. *)
Definition sample_pdev : platform_device :=
  {| of_node := Some sample_node; platform_data := None |}.

Definition unterminated_node : device_node :=
  {| of_property_read_u32 := fun _ => None;
     of_find_property := fun _ => Some 8;
     of_property_read_u32_array := fun _ n => Some [116; 114] |}.

Definition unterminated_pdev : platform_device :=
  {| of_node := Some unterminated_node; platform_data := None |}.

Definition all_allocated : parse_env :=
  {| keys_down_allocated := true; keys_up_allocated := true |}.

(** * Properties *)

(** ** Bits and wrap-around *)

Lemma test_bit_change (code c addr : Z) :
  0 <= code ->
  test_bit c (__change_bit code addr) = xorb (test_bit c addr) (code =? c).
Proof.
  intros Hc. unfold test_bit, __change_bit.
  rewrite Z.lxor_spec, Z.shiftl_1_l, Z.pow2_bits_eqb by assumption.
  reflexivity.
Qed.

Lemma test_bit_set (code c addr : Z) :
  0 <= code ->
  test_bit c (__set_bit code addr) = test_bit c addr || (code =? c).
Proof.
  intros Hc. unfold test_bit, __set_bit.
  rewrite Z.lor_spec, Z.shiftl_1_l, Z.pow2_bits_eqb by assumption.
  reflexivity.
Qed.

Lemma test_bit_nonneg (c addr : Z) : test_bit c addr = true -> 0 <= c.
Proof.
  unfold test_bit. intros Hb.
  destruct (Z.neg_nonneg_cases c) as [Hneg|?]; [|assumption].
  rewrite Z.testbit_neg_r in Hb by assumption. discriminate.
Qed.

Lemma sint32_small (z : Z) : in_int z -> sint32 z = z.
Proof.
  unfold in_int, INT_MAX, sint32. intros Hz.
  rewrite Z.mod_small by lia. lia.
Qed.

Lemma sint32_in_int (z : Z) : in_int (sint32 z).
Proof.
  unfold in_int, INT_MAX, sint32.
  pose proof (Z.mod_pos_bound (z + 2 ^ 31) (2 ^ 32) ltac:(lia)). lia.
Qed.

Lemma sint32_succ_neq (z : Z) : sint32 (z + 1) <> z.
Proof.
  unfold sint32. intros Heq.
  pose proof (Z.mod_pos_bound (z + 1 + 2 ^ 31) (2 ^ 32) ltac:(lia)) as Hb.
  assert (Hz : (z + 2 ^ 31) mod 2 ^ 32 = z + 2 ^ 31)
    by (apply Z.mod_small; lia).
  pose proof (Z.div_mod (z + 1 + 2 ^ 31) (2 ^ 32) ltac:(lia)) as Hd.
  assert (Hq : (z + 1 + 2 ^ 31) / 2 ^ 32 = 0) by (apply Z.div_small; lia).
  rewrite Hq in Hd. lia.
Qed.

Lemma sint32_pred_neq (z : Z) : sint32 (z - 1) <> z.
Proof.
  unfold sint32. intros Heq.
  pose proof (Z.mod_pos_bound (z - 1 + 2 ^ 31) (2 ^ 32) ltac:(lia)) as Hb.
  pose proof (Z.div_mod (z - 1 + 2 ^ 31) (2 ^ 32) ltac:(lia)) as Hd.
  assert (Hq : (z - 1 + 2 ^ 31) / 2 ^ 32 = 0) by (apply Z.div_small; lia).
  rewrite Hq in Hd. lia.
Qed.

(** ** One call of the handler *)

Section HandlerFacts.

Context {hdr : Headers} {K : Type} {kern : Kernel K}.

Ltac run_monad :=
  unfold transition, bind, call, ask, ret; cbn [fst snd app].

(** An event that is not accepted and fails one of the first three tests
    returns at once. *)
Lemma keycombo_event_early (state : keycombo_state) (type code value : Z) (k : K) :
  (type =? EV_KEY) && negb (code >=? KEY_MAX) && test_bit code (keybit state)
    = false ->
  keycombo_event state type code value k = (state, k, []).
Proof.
  intros Hpre. unfold keycombo_event.
  destruct (type =? EV_KEY); [|reflexivity].
  destruct (code >=? KEY_MAX); [reflexivity|].
  destruct (test_bit code (keybit state)); [discriminate|reflexivity].
Qed.

(** A tracked event that repeats the recorded pressed bit only takes and
    releases the lock. *)
Lemma keycombo_event_repeat (state : keycombo_state) (type code value : Z) (k : K) :
  (type =? EV_KEY) && negb (code >=? KEY_MAX) && test_bit code (keybit state)
    = true ->
  test_bit code (key state) = negb (value =? 0) ->
  keycombo_event state type code value k =
    (state, kvoid spin_unlock_irqrestore (kvoid spin_lock_irqsave k),
     [Did spin_lock_irqsave; Did spin_unlock_irqrestore]).
Proof.
  intros Hpre Hdup. unfold keycombo_event.
  destruct (type =? EV_KEY); [|discriminate].
  destruct (code >=? KEY_MAX); [discriminate|].
  destruct (test_bit code (keybit state)); [|discriminate].
  cbn [negb]. rewrite Hdup, negb_involutive, eqb_reflx.
  reflexivity.
Qed.

(** An accepted event runs the transition on the updated counters inside
    the lock. *)
Lemma keycombo_event_accepted (state : keycombo_state) (type code value : Z) (k : K) :
  accepted state type code value = true ->
  keycombo_event state type code value k =
    (let '(s1, k1, l1) :=
       transition (account code value state) (kvoid spin_lock_irqsave k) in
     (s1, kvoid spin_unlock_irqrestore k1,
      Did spin_lock_irqsave :: l1 ++ [Did spin_unlock_irqrestore])).
Proof.
  unfold accepted, keycombo_event. intros Hacc.
  destruct (type =? EV_KEY); [|discriminate].
  destruct (code >=? KEY_MAX); [discriminate|].
  destruct (test_bit code (keybit state)); [|discriminate].
  cbn [negb andb] in *.
  destruct (Bool.eqb (negb (test_bit code (key state))) (value =? 0));
    [discriminate|].
  unfold bind, call, ret.
  destruct (transition (account code value state) (kvoid spin_lock_irqsave k))
    as [[s1 k1] l1].
  cbn [app]. reflexivity.
Qed.

Lemma accepted_false_cases (state : keycombo_state) (type code value : Z) :
  accepted state type code value = false ->
  (type =? EV_KEY) && negb (code >=? KEY_MAX) && test_bit code (keybit state)
    = false \/
  ((type =? EV_KEY) && negb (code >=? KEY_MAX) && test_bit code (keybit state)
    = true /\ test_bit code (key state) = negb (value =? 0)).
Proof.
  unfold accepted.
  destruct ((type =? EV_KEY) && negb (code >=? KEY_MAX) &&
            test_bit code (keybit state)); [|left; reflexivity].
  cbn [andb]. intros Hdup. right. split; [reflexivity|].
  destruct (test_bit code (key state)), (value =? 0); cbn in *; congruence.
Qed.

Lemma transition_state (state : keycombo_state) (k : K) :
  result_state (transition state k) = settle state.
Proof.
  unfold settle. run_monad.
  destruct (combo_complete state).
  - destruct (kbool (queue_delayed_work _) _) as [[] ?]; reflexivity.
  - destruct (negb (key_is_down state =? 0)); [|reflexivity].
    destruct (kbool cancel_delayed_work k) as [[] ?]; cbn [negb].
    + reflexivity.
    + destruct (kbool queue_work _) as [? ?]. reflexivity.
Qed.

(** The driver state after a call does not depend on the kernel. *)
Lemma keycombo_event_state (state : keycombo_state) (type code value : Z) (k : K) :
  result_state (keycombo_event state type code value k) =
  next_state state type code value.
Proof.
  unfold next_state.
  destruct (accepted state type code value) eqn:Hacc.
  - rewrite keycombo_event_accepted by assumption.
    rewrite <- (transition_state _ (kvoid spin_lock_irqsave k)).
    destruct (transition _ _) as [[s1 k1] l1]. reflexivity.
  - destruct (accepted_false_cases _ _ _ _ Hacc) as [Hearly|[Hpre Hdup]].
    + rewrite keycombo_event_early by assumption. reflexivity.
    + rewrite keycombo_event_repeat by assumption. reflexivity.
Qed.

Lemma accepted_code_range (state : keycombo_state) (type code value : Z) :
  accepted state type code value = true ->
  0 <= code < KEY_MAX /\ test_bit code (keybit state) = true /\
  test_bit code (key state) = (value =? 0).
Proof.
  unfold accepted. intros Hacc.
  repeat (apply andb_prop in Hacc; destruct Hacc as [Hacc ?]).
  assert (Hlt : code < KEY_MAX).
  { destruct (Z.geb_spec code KEY_MAX); [discriminate|lia]. }
  split; [split; [eapply test_bit_nonneg; eassumption|assumption]|].
  split; [assumption|].
  destruct (test_bit code (key state)), (value =? 0); cbn in *; congruence.
Qed.

Lemma settle_fields (state : keycombo_state) :
  keybit (settle state) = keybit state /\ upbit (settle state) = upbit state /\
  key (settle state) = key state /\
  key_down_target (settle state) = key_down_target state /\
  key_down (settle state) = key_down state /\
  key_up (settle state) = key_up state.
Proof.
  unfold settle.
  destruct (combo_complete state); [repeat split|].
  destruct (negb (key_is_down state =? 0)); repeat split.
Qed.

Lemma account_fields (code value : Z) (state : keycombo_state) :
  keybit (account code value state) = keybit state /\
  upbit (account code value state) = upbit state /\
  key (account code value state) = __change_bit code (key state) /\
  key_down_target (account code value state) = key_down_target state /\
  key_is_down (account code value state) = key_is_down state.
Proof.
  unfold account. cbn.
  destruct (test_bit code (upbit state)), (negb (value =? 0)); repeat split.
Qed.

End HandlerFacts.

(** ** Events the handler ignores *)

Section OneEvent.

Context {hdr : Headers} {K : Type} {kern : Kernel K}.

(** C10: an event whose type is not EV_KEY, or whose code is exactly
    KEY_MAX, makes [keycombo_event] return before it takes the lock: the
    driver state and the kernel state are the ones it was called with and
    the log of calls is empty, so nothing is scheduled. *)
Theorem keycombo_event_not_key_or_key_max
    (state : keycombo_state) (type code value : Z) (k : K) :
  type <> EV_KEY \/ code = KEY_MAX ->
  keycombo_event state type code value k = (state, k, []).
Proof.
  intros [Htype|Hcode]; apply keycombo_event_early.
  - apply Z.eqb_neq in Htype. rewrite Htype. reflexivity.
  - subst code. destruct (Z.geb_spec KEY_MAX KEY_MAX); [|lia].
    apply andb_false_intro1, andb_false_intro2. reflexivity.
Qed.

(** C8: an event whose code is outside the valid range (KEY_MAX or more)
    or is not in the tracked set [keybit] leaves every field of the state
    and the kernel unchanged and makes no call at all. *)
Theorem keycombo_event_untracked
    (state : keycombo_state) (type code value : Z) (k : K) :
  KEY_MAX <= code \/ test_bit code (keybit state) = false ->
  keycombo_event state type code value k = (state, k, []).
Proof.
  intros [Hcode|Hbit]; apply keycombo_event_early.
  - destruct (Z.geb_spec code KEY_MAX); [|lia].
    apply andb_false_intro1, andb_false_intro2. reflexivity.
  - rewrite Hbit. apply andb_false_r.
Qed.

(** C4: when the value of an event equals the recorded pressed bit of its
    code, [keycombo_event] returns the state it was given (counters,
    pressed bits, phase), and the only calls it can make are taking and
    releasing the lock: no work is queued or cancelled and no wake-up
    source is touched.  And for any event, handling it a second time
    returns the state the first handling returned. *)
Theorem keycombo_event_duplicate
    (state : keycombo_state) (type code value : Z) (k : K) :
  (test_bit code (key state) = negb (value =? 0) ->
   result_state (keycombo_event state type code value k) = state /\
   ((result_log (keycombo_event state type code value k) = [] /\
     result_kernel (keycombo_event state type code value k) = k) \/
    (result_log (keycombo_event state type code value k) =
       [Did spin_lock_irqsave; Did spin_unlock_irqrestore] /\
     result_kernel (keycombo_event state type code value k) =
       kvoid spin_unlock_irqrestore (kvoid spin_lock_irqsave k)))) /\
  (forall k' : K,
     result_state
       (keycombo_event (result_state (keycombo_event state type code value k))
                       type code value k') =
     result_state (keycombo_event state type code value k)).
Proof.
  split.
  - intros Hdup.
    destruct ((type =? EV_KEY) && negb (code >=? KEY_MAX) &&
              test_bit code (keybit state)) eqn:Hpre.
    + rewrite keycombo_event_repeat by assumption.
      split; [reflexivity|]. right. split; reflexivity.
    + rewrite keycombo_event_early by assumption.
      split; [reflexivity|]. left. split; reflexivity.
  - intros k'. rewrite !keycombo_event_state.
    destruct (accepted state type code value) eqn:Hacc.
    + assert (Hn : next_state state type code value =
                   settle (account code value state))
        by (unfold next_state; rewrite Hacc; reflexivity).
      rewrite Hn.
      destruct (accepted_code_range _ _ _ _ Hacc) as [[Hlo Hhi] [Htr Hbit]].
      destruct (settle_fields (account code value state))
        as (Hkb & _ & Hkey & _).
      destruct (account_fields code value state) as (Hkb' & _ & Hkey' & _).
      unfold next_state.
      replace (accepted (settle (account code value state)) type code value)
        with false; [reflexivity|].
      symmetry. unfold accepted.
      rewrite Hkey, Hkey', test_bit_change, Hbit, Z.eqb_refl by assumption.
      destruct (value =? 0); cbn; apply andb_false_r.
    + assert (Hn : next_state state type code value = state)
        by (unfold next_state; rewrite Hacc; reflexivity).
      rewrite Hn. exact Hn.
Qed.


End OneEvent.

(** The four statements above on the sample instance. *)

Lemma keycombo_event_not_key_or_key_max_sample :
  (0 <> EV_KEY (Headers := msm8996_headers) \/
   116 = KEY_MAX (Headers := msm8996_headers)) /\
  keycombo_event (hdr := msm8996_headers) sample_state 0 116 1 idle_kernel =
    (sample_state, idle_kernel, []).
Proof.
  assert (Hhyp : 0 <> EV_KEY (Headers := msm8996_headers) \/
                 116 = KEY_MAX (Headers := msm8996_headers))
    by (left; cbn; lia).
  split; [exact Hhyp|].
  exact (keycombo_event_not_key_or_key_max
           (hdr := msm8996_headers) sample_state 0 116 1 idle_kernel Hhyp).
Defined.

Lemma keycombo_event_untracked_sample :
  (KEY_MAX (Headers := msm8996_headers) <= 30 \/
   test_bit 30 (keybit sample_state) = false) /\
  keycombo_event (hdr := msm8996_headers) sample_state 1 30 1 idle_kernel =
    (sample_state, idle_kernel, []).
Proof.
  assert (Hhyp : KEY_MAX (Headers := msm8996_headers) <= 30 \/
                 test_bit 30 (keybit sample_state) = false)
    by (right; vm_compute; reflexivity).
  split; [exact Hhyp|].
  exact (keycombo_event_untracked
           (hdr := msm8996_headers) sample_state 1 30 1 idle_kernel Hhyp).
Defined.

Lemma keycombo_event_duplicate_sample :
  test_bit 116 (key sample_held_state) = negb (1 =? 0) /\
  result_state
    (keycombo_event (hdr := msm8996_headers) sample_held_state 1 116 1
                    idle_kernel) = sample_held_state.
Proof.
  assert (Hhyp : test_bit 116 (key sample_held_state) = negb (1 =? 0))
    by (vm_compute; reflexivity).
  split; [exact Hhyp|].
  exact (proj1 (proj1 (keycombo_event_duplicate
                         (hdr := msm8996_headers)
                         sample_held_state 1 116 1 idle_kernel) Hhyp)).
Defined.


(** ** Counting pressed keys *)

Lemma filter_flip (l : list Z) (f g : Z -> bool) (code : Z) :
  NoDup l -> In code l ->
  (forall c, c <> code -> g c = f c) ->
  f code = false -> g code = true ->
  length (filter g l) = S (length (filter f l)).
Proof.
  intros Hnd Hin Hsame Hf Hg.
  induction l as [|a l IH]; [contradiction|].
  inversion Hnd as [|? ? Hnotin Hnd']; subst.
  destruct (Z.eq_dec a code) as [->|Hne].
  - cbn [filter]. rewrite Hf, Hg. cbn [length]. f_equal. f_equal.
    apply filter_ext_in. intros c Hc. apply Hsame.
    intros ->. contradiction.
  - destruct Hin as [->|Hin]; [contradiction Hne; reflexivity|].
    cbn [filter]. rewrite (Hsame a Hne).
    destruct (f a); cbn [length]; rewrite (IH Hnd' Hin); reflexivity.
Qed.

Section Counting.

Context {hdr : Headers}.

Lemma codes_NoDup : NoDup codes.
Proof.
  unfold codes. apply Injective_map_NoDup.
  - intros a b Hab. apply Nat2Z.inj. exact Hab.
  - apply seq_NoDup.
Qed.

Lemma codes_In (c : Z) : 0 <= c < KEY_MAX -> In c codes.
Proof.
  intros Hc. unfold codes. apply in_map_iff.
  exists (Z.to_nat c). split; [lia|]. apply in_seq. lia.
Qed.

Lemma pressed_count_bounds (member : Z -> bool) (pressed : Z) :
  0 <= pressed_count member pressed <= Z.max 0 KEY_MAX.
Proof.
  unfold pressed_count.
  pose proof (filter_length_le
                (fun c => member c && test_bit c pressed) codes) as Hle.
  unfold codes in Hle at 2. rewrite length_map, length_seq in Hle. lia.
Qed.

Lemma pressed_count_flip_on (m : Z -> bool) (pressed code : Z) :
  0 <= code < KEY_MAX ->
  test_bit code pressed = false ->
  m code = true ->
  pressed_count m (__change_bit code pressed) = pressed_count m pressed + 1.
Proof.
  intros Hc Hoff Hm. unfold pressed_count.
  rewrite (filter_flip codes (fun c => m c && test_bit c pressed)
             (fun c => m c && test_bit c (__change_bit code pressed)) code).
  - lia.
  - apply codes_NoDup.
  - apply codes_In. exact Hc.
  - intros c Hne. rewrite test_bit_change by lia.
    replace (code =? c) with false by (symmetry; apply Z.eqb_neq; congruence).
    rewrite xorb_false_r. reflexivity.
  - cbn beta. rewrite Hoff. apply andb_false_r.
  - cbn beta. rewrite test_bit_change, Hoff, Z.eqb_refl, Hm by lia.
    reflexivity.
Qed.

Lemma pressed_count_flip_off (m : Z -> bool) (pressed code : Z) :
  0 <= code < KEY_MAX ->
  test_bit code pressed = true ->
  m code = true ->
  pressed_count m (__change_bit code pressed) = pressed_count m pressed - 1.
Proof.
  intros Hc Hon Hm. unfold pressed_count.
  rewrite (filter_flip codes
             (fun c => m c && test_bit c (__change_bit code pressed))
             (fun c => m c && test_bit c pressed) code).
  - lia.
  - apply codes_NoDup.
  - apply codes_In. exact Hc.
  - intros c Hne. rewrite test_bit_change by lia.
    replace (code =? c) with false by (symmetry; apply Z.eqb_neq; congruence).
    rewrite xorb_false_r. reflexivity.
  - cbn beta. rewrite test_bit_change, Hon, Z.eqb_refl by lia.
    apply andb_false_r.
  - cbn beta. rewrite Hon, Hm. reflexivity.
Qed.

Lemma pressed_count_flip_other (m : Z -> bool) (pressed code : Z) :
  0 <= code ->
  m code = false ->
  pressed_count m (__change_bit code pressed) = pressed_count m pressed.
Proof.
  intros Hc Hm. unfold pressed_count. do 2 f_equal.
  apply filter_ext. intros c.
  destruct (Z.eq_dec c code) as [->|Hne].
  - rewrite Hm. reflexivity.
  - rewrite test_bit_change by lia.
    replace (code =? c) with false by (symmetry; apply Z.eqb_neq; congruence).
    rewrite xorb_false_r. reflexivity.
Qed.

End Counting.

(** ** Invariants of the counters and of the phase flag *)

Section Invariants.

Context {hdr : Headers}.

Lemma account_counters_agree (state : keycombo_state) (type code value : Z) :
  KEY_MAX <= INT_MAX ->
  accepted state type code value = true ->
  counters_agree state ->
  counters_agree (account code value state).
Proof.
  intros Hmax Hacc [Hd Hu].
  destruct (accepted_code_range _ _ _ _ Hacc) as [Hc [Htr Hbit]].
  assert (Hint : forall m p, in_int (pressed_count m p)).
  { intros m p. pose proof (pressed_count_bounds m p).
    unfold in_int, INT_MAX in *. lia. }
  assert (Hacct :
    key_down (account code value state) =
      pressed_count (is_down_key state) (__change_bit code (key state)) /\
    key_up (account code value state) =
      pressed_count (is_up_key state) (__change_bit code (key state))).
  { unfold account. cbn [upbit set_key].
    destruct (test_bit code (upbit state)) eqn:Hup.
    - assert (Hdk : is_down_key state code = false)
        by (unfold is_down_key; rewrite Hup; apply andb_false_r).
      rewrite (pressed_count_flip_other (is_down_key state)) by (lia || exact Hdk).
      destruct (value =? 0); cbn [negb] in *; cbn; split; try exact Hd.
      + rewrite pressed_count_flip_off, <- Hu by assumption.
        apply sint32_small. rewrite Hu, <- (pressed_count_flip_off _ _ code)
          by assumption. apply Hint.
      + rewrite pressed_count_flip_on, <- Hu by assumption.
        apply sint32_small. rewrite Hu, <- (pressed_count_flip_on _ _ code)
          by assumption. apply Hint.
    - assert (Hdk : is_down_key state code = true)
        by (unfold is_down_key; rewrite Htr, Hup; reflexivity).
      rewrite (pressed_count_flip_other (is_up_key state)) by (lia || exact Hup).
      destruct (value =? 0); cbn [negb] in *; cbn; split; try exact Hu.
      + rewrite pressed_count_flip_off, <- Hd by assumption.
        apply sint32_small. rewrite Hd, <- (pressed_count_flip_off _ _ code)
          by assumption. apply Hint.
      + rewrite pressed_count_flip_on, <- Hd by assumption.
        apply sint32_small. rewrite Hd, <- (pressed_count_flip_on _ _ code)
          by assumption. apply Hint. }
  destruct (account_fields code value state) as (Hkb & Hub & Hkey & _).
  destruct Hacct as [Hd' Hu'].
  unfold counters_agree. rewrite Hkey, Hd', Hu'.
  unfold pressed_count, is_down_key, is_up_key. rewrite Hkb, Hub.
  split; reflexivity.
Qed.

Lemma pressed_count_zero (m : Z -> bool) : pressed_count m 0 = 0.
Proof.
  unfold pressed_count.
  rewrite (filter_ext _ (fun _ => false)).
  - induction codes as [|c l IH]; [reflexivity|exact IH].
  - intros c. unfold test_bit. rewrite Z.testbit_0_l. apply andb_false_r.
Qed.

Lemma settle_counters_agree (state : keycombo_state) :
  counters_agree state -> counters_agree (settle state).
Proof.
  unfold settle.
  destruct (combo_complete state); [exact (fun H => H)|].
  destruct (negb (key_is_down state =? 0)); exact (fun H => H).
Qed.

Lemma combo_complete_true (state : keycombo_state) :
  combo_complete state = true ->
  key_down state = key_down_target state /\ key_up state = 0.
Proof.
  unfold combo_complete. intros Hcc.
  apply andb_prop in Hcc. destruct Hcc as [Hd Hu].
  apply Z.eqb_eq in Hd, Hu. split; assumption.
Qed.

(** While the phase flag is set the combo condition holds, after
    [settle] whatever the state before. *)
Lemma settle_phase (state : keycombo_state) :
  key_is_down (settle state) <> 0 ->
  key_down (settle state) = key_down_target (settle state) /\
  key_up (settle state) = 0.
Proof.
  unfold settle.
  destruct (combo_complete state) eqn:Hcc.
  - intros _. apply combo_complete_true in Hcc. exact Hcc.
  - destruct (key_is_down state =? 0) eqn:Hk; cbn [negb].
    + apply Z.eqb_eq in Hk. intros Hne. contradiction.
    + cbn. intros Hne. contradiction Hne. reflexivity.
Qed.

Context {K : Type} {kern : Kernel K}.

(** C5: in every state a sequence of [keycombo_event] calls reaches from
    the all-zero state, the phase flag [key_is_down] is set only when
    [key_down] equals [key_down_target] and [key_up] is 0. *)
Theorem phase_only_when_combo_complete (s0 state : keycombo_state) :
  initial s0 ->
  reachable (K := K) s0 state ->
  key_is_down state <> 0 ->
  key_down state = key_down_target state /\ key_up state = 0.
Proof.
  intros (_ & _ & _ & Hk0) Hreach.
  induction Hreach as [|state type code value k Hreach IH].
  - intros Hne. contradiction.
  - rewrite keycombo_event_state. unfold next_state.
    destruct (accepted state type code value); [|exact IH].
    apply settle_phase.
Qed.

End Invariants.

Lemma phase_only_when_combo_complete_sample :
  initial sample_state /\
  key_is_down
    (result_state
       (keycombo_event (hdr := msm8996_headers)
          (result_state
             (keycombo_event (hdr := msm8996_headers) sample_state 1 116 1
                             idle_kernel))
          1 114 1 idle_kernel)) <> 0 /\
  key_down
    (result_state
       (keycombo_event (hdr := msm8996_headers)
          (result_state
             (keycombo_event (hdr := msm8996_headers) sample_state 1 116 1
                             idle_kernel))
          1 114 1 idle_kernel)) = 2.
Proof.
  assert (H1 : initial sample_state) by (repeat split).
  assert (H2 : key_is_down
    (result_state
       (keycombo_event (hdr := msm8996_headers)
          (result_state
             (keycombo_event (hdr := msm8996_headers) sample_state 1 116 1
                             idle_kernel))
          1 114 1 idle_kernel)) <> 0) by (vm_compute; discriminate).
  split; [exact H1|]. split; [exact H2|].
  exact (proj1 (phase_only_when_combo_complete (hdr := msm8996_headers)
           sample_state _ H1
           (reachable_event sample_state _ 1 114 1 idle_kernel
              (reachable_event sample_state sample_state 1 116 1 idle_kernel
                 (reachable_start sample_state)))
           H2)).
Defined.

(** ** Attaching to a device *)

Section ConnectFacts.

Context {hdr : Headers}.

Lemma connect_scan_spec (n : nat) (i skb dkb : Z) :
  i <= connect_scan n i skb dkb <= i + Z.of_nat n /\
  (connect_scan n i skb dkb < i + Z.of_nat n ->
   test_bit (connect_scan n i skb dkb) skb &&
   test_bit (connect_scan n i skb dkb) dkb = true) /\
  (forall c, i <= c < connect_scan n i skb dkb ->
             test_bit c skb && test_bit c dkb = false).
Proof.
  revert i. induction n as [|n IH]; intros i.
  - cbn [connect_scan]. repeat split; lia.
  - cbn [connect_scan].
    destruct (test_bit i skb && test_bit i dkb) eqn:Hi.
    + repeat split; try lia. intros _. exact Hi.
    + destruct (IH (i + 1)) as (Hrange & Hhit & Hmiss).
      repeat split; try lia.
      * intros Hlt. apply Hhit. lia.
      * intros c Hc. destruct (Z.eq_dec c i) as [->|Hne]; [exact Hi|].
        apply Hmiss. lia.
Qed.

(** C9: [keycombo_connect] goes on to attach (it allocates the handle)
    exactly when some code below KEY_MAX is both in the device's key set
    and in the tracked set of the instance; without such a code it returns
    -ENODEV and has called nothing. *)
Theorem keycombo_connect_overlap
    (state : keycombo_state) (dev_keybit : Z) (env : connect_env) :
  0 <= KEY_MAX ->
  ((exists c, 0 <= c < KEY_MAX /\ test_bit c (keybit state) = true /\
              test_bit c dev_keybit = true) <->
   (exists ok rest,
      snd (keycombo_connect state dev_keybit env) = kzalloc_handle ok :: rest))
  /\
  (~ (exists c, 0 <= c < KEY_MAX /\ test_bit c (keybit state) = true /\
                test_bit c dev_keybit = true) ->
   keycombo_connect state dev_keybit env = (- ENODEV, [])).
Proof.
  intros Hmax.
  destruct (connect_scan_spec (Z.to_nat KEY_MAX) 0 (keybit state) dev_keybit)
    as (Hrange & Hhit & Hmiss).
  rewrite Z2Nat.id in * by assumption. cbn [Z.add] in *.
  unfold keycombo_connect.
  set (i := connect_scan (Z.to_nat KEY_MAX) 0 (keybit state) dev_keybit) in *.
  destruct (Z.eqb_spec i KEY_MAX) as [Heq|Hne].
  - assert (Hnone : ~ (exists c, 0 <= c < KEY_MAX /\
                         test_bit c (keybit state) = true /\
                         test_bit c dev_keybit = true)).
    { intros (c & Hc & Hs & Hd).
      specialize (Hmiss c ltac:(lia)). rewrite Hs, Hd in Hmiss. discriminate. }
    split; [|intros _; reflexivity].
    split; [intros Hex; contradiction|].
    intros (ok & rest & Hlog). discriminate.
  - assert (Hsome : exists c, 0 <= c < KEY_MAX /\
                      test_bit c (keybit state) = true /\
                      test_bit c dev_keybit = true).
    { exists i. specialize (Hhit ltac:(lia)).
      apply andb_prop in Hhit. destruct Hhit. repeat split; (lia || assumption). }
    split; [|intros Hnone; contradiction].
    split; [intros _|intros _; exact Hsome].
    destruct (handle_allocated env); cbn [negb];
      [|do 2 eexists; reflexivity].
    destruct (register_handle_ret env =? 0); cbn [negb];
      [|do 2 eexists; reflexivity].
    destruct (open_device_ret env =? 0); cbn [negb];
      do 2 eexists; reflexivity.
Qed.

End ConnectFacts.

Lemma keycombo_connect_overlap_sample :
  0 <= KEY_MAX (Headers := msm8996_headers) /\
  keycombo_connect (hdr := msm8996_headers) sample_state (2 ^ 30)
    {| handle_allocated := true; register_handle_ret := 0;
       open_device_ret := 0 |} = (- 19, []).
Proof.
  assert (H0 : 0 <= KEY_MAX (Headers := msm8996_headers))
    by (vm_compute; discriminate).
  split; [exact H0|].
  refine (proj2 (keycombo_connect_overlap (hdr := msm8996_headers)
                   sample_state (2 ^ 30) _ H0) _).
  intros (c & Hc & Hs & Hd).
  assert (Hc30 : c = 30).
  { destruct (Z.eq_dec c 30) as [|Hne]; [assumption|].
    unfold test_bit in Hd. rewrite Z.pow2_bits_false in Hd by congruence.
    discriminate. }
  subst c. vm_compute in Hs. discriminate.
Defined.

(** ** Construction *)

Lemma sint32_idem_l (a b : Z) : sint32 (sint32 a + b) = sint32 (a + b).
Proof.
  unfold sint32.
  replace ((a + 2 ^ 31) mod 2 ^ 32 - 2 ^ 31 + b + 2 ^ 31)
    with ((a + 2 ^ 31) mod 2 ^ 32 + b) by lia.
  rewrite Zplus_mod_idemp_l. do 2 f_equal. lia.
Qed.

Section ProbeFacts.

Context {hdr : Headers}.

Lemma listed_cons (c k : Z) (keys : list Z) :
  listed c (k :: keys) = (k =? c) || listed c keys.
Proof. unfold listed. cbn [existsb]. rewrite (Z.eqb_sym c k). reflexivity. Qed.

Lemma scan_keys_down_terminated (keys rest : list Z) (state : keycombo_state) :
  Forall (fun k => 0 < k) keys ->
  in_int (key_down_target state) ->
  exists s',
    scan_keys_down (keys ++ 0 :: rest) state = Some s' /\
    key_down_target s' =
      sint32 (key_down_target state + Z.of_nat (length (kept keys))) /\
    (forall c, test_bit c (keybit s') =
               test_bit c (keybit state) || listed c (kept keys)) /\
    upbit s' = upbit state /\ key s' = key state /\
    key_down s' = key_down state /\ key_up s' = key_up state /\
    key_is_down s' = key_is_down state.
Proof.
  intros Hpos. revert state.
  induction Hpos as [|k keys Hk Hpos IH]; intros state Hint.
  - exists state. cbn. rewrite Z.add_0_r, sint32_small by assumption.
    repeat split. intros c. rewrite orb_false_r. reflexivity.
  - cbn [app scan_keys_down kept filter].
    replace (k =? 0) with false by (symmetry; apply Z.eqb_neq; lia).
    destruct (Z.geb_spec k KEY_MAX) as [Hge|Hlt].
    + replace (k <? KEY_MAX) with false by (symmetry; apply Z.ltb_ge; lia).
      apply IH. exact Hint.
    + replace (k <? KEY_MAX) with true by (symmetry; apply Z.ltb_lt; lia).
      replace (k <? 0) with false by (symmetry; apply Z.ltb_ge; lia).
      destruct (IH (set_keybit (__set_bit k (keybit state))
                      (set_key_down_target
                         (sint32 (key_down_target state + 1)) state)))
        as (s' & Hscan & Ht & Hb & Hrest).
      { apply sint32_in_int. }
      exists s'. split; [exact Hscan|]. split; [|split; [|exact Hrest]].
      * rewrite Ht. cbn [key_down_target set_keybit set_key_down_target length].
        rewrite sint32_idem_l. apply (f_equal sint32).
        unfold kept. lia.
      * intros c. rewrite Hb. cbn [keybit set_keybit].
        rewrite test_bit_set, listed_cons, orb_assoc by lia. reflexivity.
Qed.

Lemma scan_keys_up_terminated (keys rest : list Z) (state : keycombo_state) :
  Forall (fun k => 0 < k) keys ->
  exists s',
    scan_keys_up (keys ++ 0 :: rest) state = Some s' /\
    (forall c, test_bit c (keybit s') =
               test_bit c (keybit state) || listed c (kept keys)) /\
    (forall c, test_bit c (upbit s') =
               test_bit c (upbit state) || listed c (kept keys)) /\
    key_down_target s' = key_down_target state /\ key s' = key state /\
    key_down s' = key_down state /\ key_up s' = key_up state /\
    key_is_down s' = key_is_down state.
Proof.
  intros Hpos. revert state.
  induction Hpos as [|k keys Hk Hpos IH]; intros state.
  - exists state. cbn. repeat split; intros c; rewrite orb_false_r; reflexivity.
  - cbn [app scan_keys_up kept filter].
    replace (k =? 0) with false by (symmetry; apply Z.eqb_neq; lia).
    destruct (Z.geb_spec k KEY_MAX) as [Hge|Hlt].
    + replace (k <? KEY_MAX) with false by (symmetry; apply Z.ltb_ge; lia).
      apply IH.
    + replace (k <? KEY_MAX) with true by (symmetry; apply Z.ltb_lt; lia).
      replace (k <? 0) with false by (symmetry; apply Z.ltb_ge; lia).
      destruct (IH (set_upbit (__set_bit k (upbit (set_keybit
                                  (__set_bit k (keybit state)) state)))
                      (set_keybit (__set_bit k (keybit state)) state)))
        as (s' & Hscan & Hb & Hu & Hrest).
      exists s'. split; [exact Hscan|].
      split; [|split; [|exact Hrest]]; intros c.
      * rewrite Hb. cbn [keybit set_keybit set_upbit].
        rewrite test_bit_set, listed_cons, orb_assoc by lia. reflexivity.
      * rewrite Hu. cbn [upbit set_keybit set_upbit].
        rewrite test_bit_set, listed_cons, orb_assoc by lia. reflexivity.
Qed.

End ProbeFacts.

Section ProbeClaims.

Context {hdr : Headers}.

Lemma listed_kept (c : Z) (keys : list Z) :
  In c keys -> c < KEY_MAX -> listed c (kept keys) = true.
Proof.
  intros Hin Hlt. unfold listed, kept. apply existsb_exists.
  exists c. split; [|apply Z.eqb_refl].
  apply filter_In. split; [exact Hin|]. apply Z.ltb_lt. exact Hlt.
Qed.

(** Both key loops run to their terminator when the arrays are well
    formed. *)
Lemma probe_scans (pdata : keycombo_platform_data) (downs ups : list Z) :
  terminated (keys_down pdata) downs ->
  match keys_up pdata with
  | Some arr => terminated arr ups
  | None => ups = []
  end ->
  exists s1 s2,
    scan_keys_down (keys_down pdata) zeroed_state = Some s1 /\
    match keys_up pdata with
    | Some keyp => scan_keys_up keyp s1
    | None => Some s1
    end = Some s2 /\
    key_down_target s2 = sint32 (Z.of_nat (length (kept downs))) /\
    (forall c, test_bit c (keybit s2) =
               listed c (kept downs) || listed c (kept ups)) /\
    (forall c, test_bit c (upbit s2) = listed c (kept ups)) /\
    key s2 = 0 /\ key_down s2 = 0 /\ key_up s2 = 0 /\ key_is_down s2 = 0.
Proof.
  intros [[rest Harr] Hpos] Hup.
  destruct (scan_keys_down_terminated downs rest zeroed_state Hpos)
    as (s1 & Hscan & Ht & Hb & Hu & Hk & Hd & Hku & Hkid).
  { unfold in_int, INT_MAX. cbn. lia. }
  rewrite <- Harr in Hscan.
  exists s1.
  assert (Hbit0 : forall c, test_bit c 0 = false)
    by (intros c; apply Z.testbit_0_l).
  destruct (keys_up pdata) as [arr|].
  - destruct Hup as [[rest' Harr'] Hpos'].
    destruct (scan_keys_up_terminated ups rest' s1 Hpos')
      as (s2 & Hscan2 & Hb2 & Hu2 & Ht2 & Hk2 & Hd2 & Hku2 & Hkid2).
    rewrite <- Harr' in Hscan2.
    exists s2. split; [exact Hscan|]. split; [exact Hscan2|].
    split; [rewrite Ht2, Ht; reflexivity|].
    split; [intros c; rewrite Hb2, Hb; cbn [keybit zeroed_state];
            rewrite Hbit0; reflexivity|].
    split; [intros c; rewrite Hu2, Hu; cbn [upbit zeroed_state];
            rewrite Hbit0; reflexivity|].
    rewrite Hk2, Hd2, Hku2, Hkid2, Hk, Hd, Hku, Hkid. repeat split.
  - subst ups. exists s1. split; [exact Hscan|]. split; [reflexivity|].
    split; [rewrite Ht; reflexivity|].
    split; [intros c; rewrite Hb; cbn [keybit zeroed_state];
            rewrite Hbit0; cbn; rewrite orb_false_r; reflexivity|].
    split; [intros c; rewrite Hu; cbn; rewrite Hbit0; reflexivity|].
    rewrite Hk, Hd, Hku, Hkid. repeat split.
Qed.

(** C6, as the code has it: [keycombo_probe] has no failure for an empty
    down list.  With well-formed key arrays, and when the allocations and
    the handler registration succeed, it creates an all-zero instance
    whatever the lists hold, also when no down key is listed or none is
    left after skipping (the target is then 0); the codes at or beyond
    KEY_MAX are skipped silently: the tracked set is exactly the kept
    codes of both lists and the target counts the kept down entries.
    When it does fail, an allocation or the registration failed. *)
Theorem keycombo_probe_accepts_any_keys
    (pdata : keycombo_platform_data) (env : probe_env) (downs ups : list Z) :
  terminated (keys_down pdata) downs ->
  match keys_up pdata with
  | Some arr => terminated arr ups
  | None => ups = []
  end ->
  (state_allocated env = true -> workqueue_allocated env = true ->
   register_handler_ret env = 0 ->
   exists state,
     keycombo_probe (Some pdata) env = Probed state /\
     initial state /\
     key_down_target state = sint32 (Z.of_nat (length (kept downs))) /\
     (forall c, test_bit c (keybit state) =
                listed c (kept downs) || listed c (kept ups)) /\
     (forall c, test_bit c (upbit state) = listed c (kept ups)))
  /\
  (forall ret,
     keycombo_probe (Some pdata) env = Failed ret ->
     state_allocated env = false \/ workqueue_allocated env = false \/
     (ret = register_handler_ret env /\ ret <> 0)).
Proof.
  intros Hdown Hup.
  destruct (probe_scans pdata downs ups Hdown Hup)
    as (s1 & s2 & Hs1 & Hs2 & Ht & Hb & Hu & Hk & Hd & Hku & Hkid).
  unfold keycombo_probe. rewrite Hs1, Hs2.
  split.
  - intros -> -> ->. cbn [negb Z.eqb].
    eexists. split; [reflexivity|].
    split; [repeat split; assumption|].
    split; [exact Ht|]. split; [exact Hb|exact Hu].
  - intros ret.
    destruct (state_allocated env); cbn [negb]; [|left; reflexivity].
    destruct (workqueue_allocated env); cbn [negb];
      [|right; left; reflexivity].
    destruct (Z.eqb_spec (register_handler_ret env) 0) as [Hz|Hnz];
      cbn [negb]; [discriminate|].
    intros [= <-]. right. right. split; [reflexivity|exact Hnz].
Qed.

Context {K : Type} {kern : Kernel K}.

(** C7, as the code has it: a code listed in both arrays gets its bit
    in [upbit], so the handler treats it as an up key: an event on it never
    changes [key_down], and an accepted one moves [key_up] by one. *)
Theorem overlapping_key_is_up_key
    (pdata : keycombo_platform_data) (env : probe_env)
    (downs arr ups : list Z) (state : keycombo_state) (code : Z) :
  terminated (keys_down pdata) downs ->
  keys_up pdata = Some arr ->
  terminated arr ups ->
  In code downs -> In code ups -> code < KEY_MAX ->
  keycombo_probe (Some pdata) env = Probed state ->
  test_bit code (upbit state) = true /\
  forall (st : keycombo_state) (type value : Z) (k : K),
    upbit st = upbit state ->
    key_down (result_state (keycombo_event st type code value k)) =
      key_down st /\
    (accepted st type code value = true ->
     key_up (result_state (keycombo_event st type code value k)) =
       sint32 (key_up st + (if value =? 0 then -1 else 1))).
Proof.
  intros Hdown Harr Hup Hind Hinu Hlt Hprobe.
  assert (Hup' : match keys_up pdata with
                 | Some arr => terminated arr ups
                 | None => ups = []
                 end) by (rewrite Harr; exact Hup).
  destruct (probe_scans pdata downs ups Hdown Hup')
    as (s1 & s2 & Hs1 & Hs2 & _ & _ & Hu & _).
  assert (Hbit : test_bit code (upbit state) = true).
  { unfold keycombo_probe in Hprobe. rewrite Hs1, Hs2 in Hprobe.
    destruct (negb (state_allocated env)); [discriminate|].
    destruct (negb (workqueue_allocated env)); [discriminate|].
    destruct (negb (register_handler_ret env =? 0)); [discriminate|].
    injection Hprobe as <-. cbn [upbit].
    rewrite Hu. apply listed_kept; assumption. }
  split; [exact Hbit|].
  intros st type value k Hsame.
  rewrite keycombo_event_state. unfold next_state.
  destruct (accepted st type code value); [|split; [reflexivity|discriminate]].
  destruct (settle_fields (account code value st)) as (_ & _ & _ & _ & Hd & Hku).
  rewrite Hd, Hku. unfold account. cbn [upbit set_key].
  rewrite Hsame, Hbit.
  destruct (value =? 0); cbn [negb]; split; try reflexivity; intros _;
    reflexivity.
Qed.

End ProbeClaims.

(** Construction on the sample configurations. *)

(** Against C6 as stated: a configuration whose down list is empty, or
    holds only a code beyond KEY_MAX, is not refused: an instance with
    target 0 is created. *)
Lemma keycombo_probe_empty_down_list :
  keycombo_probe (hdr := msm8996_headers) (Some empty_pdata) sample_env =
    Probed (mk_state 0 0 0 0 0 0 50 true true 0) /\
  keycombo_probe (hdr := msm8996_headers)
    (Some {| pdata_key_down_fn := true; pdata_key_up_fn := true;
             key_down_delay := 500; keys_up := None;
             keys_down := [800; 0] |}) sample_env =
    Probed (mk_state 0 0 0 0 0 0 50 true true 0).
Proof. split; vm_compute; reflexivity. Qed.

Lemma keycombo_probe_accepts_any_keys_sample :
  terminated (keys_down sample_pdata) [116; 114] /\
  terminated [115; 0] [115] /\
  exists state,
    keycombo_probe (hdr := msm8996_headers) (Some sample_pdata) sample_env =
      Probed state /\
    initial state /\
    key_down_target state =
      sint32 (Z.of_nat (length (kept (hdr := msm8996_headers) [116; 114]))) /\
    (forall c, test_bit c (keybit state) =
               listed c (kept (hdr := msm8996_headers) [116; 114]) ||
               listed c (kept (hdr := msm8996_headers) [115])) /\
    (forall c, test_bit c (upbit state) =
               listed c (kept (hdr := msm8996_headers) [115])).
Proof.
  assert (H1 : terminated (keys_down sample_pdata) [116; 114]).
  { split; [exists []; reflexivity|]. repeat constructor. }
  assert (H2 : terminated [115; 0] [115]).
  { split; [exists []; reflexivity|]. repeat constructor. }
  split; [exact H1|]. split; [exact H2|].
  exact (proj1 (keycombo_probe_accepts_any_keys (hdr := msm8996_headers)
                  sample_pdata sample_env [116; 114] [115] H1 H2)
           eq_refl eq_refl eq_refl).
Defined.

(** Against C7 as stated: power is listed in both arrays; pressing it
    leaves the down count at 0 and raises the up count. *)
Lemma overlapping_key_counted_as_up :
  exists state,
    keycombo_probe (hdr := msm8996_headers) (Some overlap_pdata) sample_env =
      Probed state /\
    key_down
      (result_state
         (keycombo_event (hdr := msm8996_headers) state 1 116 1 idle_kernel))
      = 0 /\
    key_up
      (result_state
         (keycombo_event (hdr := msm8996_headers) state 1 116 1 idle_kernel))
      = 1.
Proof.
  exists (mk_state (2 ^ 116 + 2 ^ 114) (2 ^ 116) 0 2 0 0 50 true true 0).
  repeat split; vm_compute; reflexivity.
Qed.

Lemma overlapping_key_is_up_key_sample :
  terminated (keys_down overlap_pdata) [116; 114] /\
  keys_up overlap_pdata = Some [116; 0] /\
  terminated [116; 0] [116] /\
  In 116 [116; 114] /\ In 116 [116] /\
  116 < KEY_MAX (Headers := msm8996_headers) /\
  keycombo_probe (hdr := msm8996_headers) (Some overlap_pdata) sample_env =
    Probed (mk_state (2 ^ 116 + 2 ^ 114) (2 ^ 116) 0 2 0 0 50 true true 0) /\
  test_bit 116
    (upbit (mk_state (2 ^ 116 + 2 ^ 114) (2 ^ 116) 0 2 0 0 50 true true 0))
    = true.
Proof.
  assert (H1 : terminated (keys_down overlap_pdata) [116; 114]).
  { split; [exists []; reflexivity|]. repeat constructor. }
  assert (H2 : keys_up overlap_pdata = Some [116; 0]) by reflexivity.
  assert (H3 : terminated [116; 0] [116]).
  { split; [exists []; reflexivity|]. repeat constructor. }
  assert (H4 : In 116 [116; 114]) by (left; reflexivity).
  assert (H5 : In 116 [116]) by (left; reflexivity).
  assert (H6 : 116 < KEY_MAX (Headers := msm8996_headers))
    by (vm_compute; reflexivity).
  assert (H7 : keycombo_probe (hdr := msm8996_headers) (Some overlap_pdata)
                 sample_env =
               Probed (mk_state (2 ^ 116 + 2 ^ 114) (2 ^ 116) 0 2 0 0 50
                                true true 0))
    by (vm_compute; reflexivity).
  repeat (split; [assumption|]).
  exact (proj1 (overlapping_key_is_up_key (hdr := msm8996_headers)
                  (K := kernel)
                  overlap_pdata sample_env [116; 114] [116; 0] [116] _ 116
                  H1 H2 H3 H4 H5 H6 H7)).
Defined.

(** The sample instance is what [keycombo_probe] builds from the sample
    configuration. *)
Lemma sample_state_probed :
  keycombo_probe (hdr := msm8996_headers) (Some sample_pdata) sample_env =
    Probed sample_state.
Proof. vm_compute. reflexivity. Qed.

(** ** The order of the callbacks *)

Lemma callbacks_app (l1 l2 : list kevent) :
  callbacks (l1 ++ l2) = callbacks l1 ++ callbacks l2.
Proof.
  induction l1 as [|e l1 IH]; [reflexivity|].
  destruct e as [[| | | | |f]|c r]; cbn [app callbacks]; rewrite IH; reflexivity.
Qed.

Lemma expected_after_none (l : list work) : expected_after l None = None.
Proof. induction l as [|w l IH]; [reflexivity|exact IH]. Qed.

Lemma expected_after_app (l1 l2 : list work) (e : option work) :
  expected_after (l1 ++ l2) e = expected_after l2 (expected_after l1 e).
Proof. apply fold_left_app. Qed.

Lemma expected_after_prefix (l1 l2 : list work) (e : option work) (e' : work) :
  expected_after (l1 ++ l2) e = Some e' ->
  exists e1, expected_after l1 e = Some e1.
Proof.
  rewrite expected_after_app.
  destruct (expected_after l1 e) as [e1|]; [eauto|].
  rewrite expected_after_none. discriminate.
Qed.

Lemma expected_alternates (l : list work) (e e' : work) :
  expected_after l (Some e) = Some e' ->
  alternates (work_callback e) (map work_callback l).
Proof.
  revert e. induction l as [|w l IH]; intros e Hexp.
  - constructor.
  - unfold expected_after in Hexp. cbn [fold_left expect_step] in Hexp.
    destruct (work_eqb e w) eqn:Hew.
    + assert (w = e) by (destruct e, w; (reflexivity || discriminate)).
      subst w. cbn [map]. constructor.
      replace (other (work_callback e)) with (work_callback (other_work e))
        by (destruct e; reflexivity).
      apply IH. exact Hexp.
    + change (expected_after l None = Some e') in Hexp.
      rewrite expected_after_none in Hexp. discriminate.
Qed.

Lemma heard_all (l : list work) :
  flat_map (heard true true) l = map work_callback l.
Proof.
  induction l as [|[] l IH]; cbn; rewrite ?IH; reflexivity.
Qed.

Section Order.

Context {hdr : Headers}.

(** An accepted event changes one counter, so it cannot keep the combo
    condition true. *)
Lemma account_breaks_combo (state : keycombo_state) (type code value : Z) :
  combo_complete state = true ->
  combo_complete (account code value state) = false.
Proof.
  intros Hcc. apply combo_complete_true in Hcc. destruct Hcc as [Hd Hu].
  unfold account. cbn [upbit set_key].
  destruct (test_bit code (upbit state)), (value =? 0); cbn [negb];
    unfold combo_complete; cbn.
  - rewrite Hu. apply andb_false_r.
  - rewrite Hu. apply andb_false_r.
  - replace (sint32 (key_down state - 1) =? key_down_target state) with false;
      [reflexivity|].
    symmetry. apply Z.eqb_neq. rewrite <- Hd. apply sint32_pred_neq.
  - replace (sint32 (key_down state + 1) =? key_down_target state) with false;
      [reflexivity|].
    symmetry. apply Z.eqb_neq. rewrite <- Hd. apply sint32_succ_neq.
Qed.

Lemma account_fns (code value : Z) (state : keycombo_state) :
  key_down_fn (account code value state) = key_down_fn state /\
  key_up_fn (account code value state) = key_up_fn state /\
  delay (account code value state) = delay state.
Proof.
  unfold account. cbn.
  destruct (test_bit code (upbit state)), (negb (value =? 0)); repeat split.
Qed.

End Order.

Section OrderSteps.

Context {hdr : Headers}.

Ltac split_shape k :=
  let lt := fresh "lt" in let ha := fresh "ha" in let ua := fresh "ua" in
  let tp := fresh "tp" in let wl := fresh "wl" in let cur := fresh "cur" in
  destruct k as [lt ha ua tp wl cur];
  unfold pending_ok in *; cbn [worklist timer_pending] in *;
  destruct wl as [|[] [|[] [|? ?]]]; destruct tp; try contradiction.

Lemma event_ok (dn up : bool) (sys : system) (type code value : Z) :
  system_ok dn up sys ->
  system_ok dn up (step sys (input_event type code value)).
Proof.
  destruct sys as [s k c r].
  intros (Hshape & Hexp & Hphase & Hdn & Hup & Hcalls).
  cbn [drv krn calls ran] in *.
  unfold step. cbn [drv krn calls ran].
  destruct (accepted s type code value) eqn:Hacc.
  2:{ destruct (accepted_false_cases _ _ _ _ Hacc) as [Hearly|[Hpre Hdup]].
      - rewrite keycombo_event_early by assumption.
        rewrite app_nil_r. repeat split; assumption.
      - rewrite keycombo_event_repeat by assumption.
        unfold system_ok. cbn [drv krn calls ran].
        rewrite callbacks_app, app_nil_r.
        destruct k; repeat split; assumption. }
  rewrite keycombo_event_accepted by assumption.
  destruct (account_fields code value s) as (_ & _ & _ & _ & Hkid).
  destruct (account_fns code value s) as (Hfd & Hfu & _).
  unfold transition.
  destruct (combo_complete (account code value s)) eqn:Hcc.
  - (* the combo forms: the flag was clear *)
    assert (Hk0 : key_is_down s = 0).
    { destruct (Z.eq_dec (key_is_down s) 0) as [|Hne]; [assumption|].
      rewrite (account_breaks_combo s type code value (Hphase Hne)) in Hcc.
      discriminate. }
    rewrite Hk0 in Hexp. cbn [Z.eqb] in Hexp.
    unfold expected_after, in_flight in Hexp.
    rewrite fold_left_app in Hexp.
    unfold bind, call, ask, ret, system_ok.
    cbn [kbool kvoid kernel_model].
    split_shape k; cbn [current worklist timer_pending] in Hexp;
      remember (fold_left expect_step r (Some key_down_work)) as x eqn:Hx;
      destruct cur as [[]|]; destruct x as [[]|]; cbn in Hexp;
      try discriminate.
    all: cbn -[Z.eqb combo_complete account flat_map callbacks].
    all: match goal with
         | |- context [delay ?a =? 0] => destruct (delay a =? 0)
         end.
    all: cbn -[Z.eqb combo_complete account flat_map callbacks].
    all: rewrite fold_left_app, <- Hx, callbacks_app.
    all: cbn -[combo_complete account flat_map].
    all: rewrite ?app_nil_r.
    all: repeat split; try assumption; try congruence.
    all: intros _; exact Hcc.
  - destruct (key_is_down (account code value s) =? 0) eqn:Hk; cbn [negb].
    + (* nothing to do *)
      unfold bind, call, ret, system_ok. cbn [kvoid kernel_model].
      rewrite Hkid in Hk. rewrite Hk in Hexp.
      cbn -[Z.eqb combo_complete account flat_map callbacks].
      rewrite Hkid, Hk, callbacks_app, app_nil_r.
      destruct k. repeat split; try assumption; try congruence.
      intros Hne. apply Z.eqb_eq in Hk. contradiction.
    + (* the combo breaks *)
      rewrite Hkid in Hk. rewrite Hk in Hexp.
      unfold expected_after, in_flight in Hexp.
      rewrite fold_left_app in Hexp.
      unfold bind, call, ask, ret, system_ok.
      cbn [kbool kvoid kernel_model].
      split_shape k; cbn [current worklist timer_pending] in Hexp;
        remember (fold_left expect_step r (Some key_down_work)) as x eqn:Hx;
        destruct cur as [[]|]; destruct x as [[]|]; cbn in Hexp;
        try discriminate.
      all: cbn -[Z.eqb combo_complete account flat_map callbacks].
      all: rewrite ?fold_left_app, <- ?Hx, callbacks_app.
      all: cbn -[combo_complete account flat_map].
      all: rewrite ?app_nil_r.
      all: repeat split; try assumption; try congruence.
Qed.


Lemma timer_ok (dn up : bool) (sys : system) :
  system_ok dn up sys -> system_ok dn up (step sys timer_expires).
Proof.
  destruct sys as [s k c r].
  intros (Hshape & Hexp & Hrest).
  unfold step, system_ok in *. cbn [drv krn calls ran] in *.
  unfold in_flight in *.
  split_shape k; cbn [timer_pending worklist current app] in *;
    rewrite ?app_nil_r in *; repeat split; tauto.
Qed.

Lemma worker_takes_ok (dn up : bool) (sys : system) :
  system_ok dn up sys -> system_ok dn up (step sys worker_takes).
Proof.
  destruct sys as [s k c r].
  intros (Hshape & Hexp & Hrest).
  unfold step, system_ok in *. cbn [drv krn calls ran] in *.
  unfold in_flight in *.
  split_shape k; destruct cur; cbn [timer_pending worklist current app] in *;
    repeat split; tauto.
Qed.

Lemma worker_runs_ok (dn up : bool) (sys : system) :
  system_ok dn up sys -> system_ok dn up (step sys worker_runs).
Proof.
  destruct sys as [s k c r].
  intros (Hshape & Hexp & Hphase & Hdn & Hup & Hcalls).
  unfold step. cbn [drv krn calls ran] in *.
  destruct (current k) as [w|] eqn:Hcur;
    [|repeat split; assumption].
  assert (Hflight : r ++ in_flight k =
                    (r ++ [w]) ++ worklist k ++
                    (if timer_pending k then [key_down_work] else [])).
  { unfold in_flight. rewrite Hcur, <- app_assoc. reflexivity. }
  rewrite Hflight in Hexp.
  destruct k as [lt ha ua tp wl cur]. cbn [current] in Hcur. subst cur.
  cbn [lock_taken held_awake up_awake timer_pending worklist] in *.
  unfold system_ok, in_flight, do_key_down, do_key_up, bind, call, ret.
  rewrite Hdn, Hup.
  destruct w, dn, up;
    cbn -[Z.eqb combo_complete flat_map callbacks expected_after];
    rewrite callbacks_app, flat_map_app, Hcalls;
    cbn -[Z.eqb combo_complete expected_after];
    rewrite ?app_nil_r; repeat split; assumption.
Qed.

Lemma step_ok (dn up : bool) (sys : system) (a : action) :
  system_ok dn up sys -> system_ok dn up (step sys a).
Proof.
  destruct a as [type code value| | |].
  - apply event_ok.
  - apply timer_ok.
  - apply worker_takes_ok.
  - apply worker_runs_ok.
Qed.

Lemma run_ok (dn up : bool) (l : list action) (sys : system) :
  system_ok dn up sys -> system_ok dn up (run sys l).
Proof.
  revert sys. induction l as [|a l IH]; intros sys Hok; [exact Hok|].
  cbn [run fold_left]. apply IH, step_ok, Hok.
Qed.

Lemma fresh_ok (state : keycombo_state) :
  initial state ->
  system_ok (key_down_fn state) (key_up_fn state) (fresh state).
Proof.
  intros (_ & _ & _ & Hk).
  unfold system_ok, fresh. cbn. rewrite Hk.
  repeat split. intros Hne. contradiction Hne. reflexivity.
Qed.

(** C3, as the code has it: from a new instance, whatever events arrive
    and however the timer and the worker interleave with them, the runs of
    the two work functions come in turns, do_key_down first; the callbacks
    the client hears are those runs when both function pointers are set,
    so then the calls of key_down_fn and key_up_fn alternate strictly,
    starting with key_down_fn. *)
Theorem callbacks_alternate (state : keycombo_state) (l : list action) :
  initial state ->
  alternates on_key_down (map work_callback (ran (run (fresh state) l))) /\
  (key_down_fn state = true -> key_up_fn state = true ->
   alternates on_key_down (callbacks (calls (run (fresh state) l)))).
Proof.
  intros Hinit.
  destruct (run_ok _ _ l _ (fresh_ok state Hinit))
    as (_ & Hexp & _ & _ & _ & Hcalls).
  destruct (expected_after_prefix _ _ _ _ Hexp) as [e1 He1].
  pose proof (expected_alternates _ _ _ He1) as Halt.
  split; [exact Halt|].
  intros Hd Hu. rewrite Hcalls, Hd, Hu, heard_all. exact Halt.
Qed.

End OrderSteps.

(** The order of the callbacks on the sample instances. *)

Lemma callbacks_alternate_sample :
  initial sample_state /\
  alternates on_key_down
    (callbacks
       (calls
          (run (hdr := msm8996_headers) (fresh sample_state)
             [input_event 1 116 1; input_event 1 114 1; timer_expires;
              worker_takes; worker_runs; input_event 1 116 0;
              worker_takes; worker_runs]))) /\
  callbacks
    (calls
       (run (hdr := msm8996_headers) (fresh sample_state)
          [input_event 1 116 1; input_event 1 114 1; timer_expires;
           worker_takes; worker_runs; input_event 1 116 0;
           worker_takes; worker_runs])) = [on_key_down; on_key_up].
Proof.
  assert (H1 : initial sample_state) by (repeat split).
  split; [exact H1|].
  split; [|vm_compute; reflexivity].
  exact (proj2 (callbacks_alternate (hdr := msm8996_headers) sample_state
                  [input_event 1 116 1; input_event 1 114 1; timer_expires;
                   worker_takes; worker_runs; input_event 1 116 0;
                   worker_takes; worker_runs] H1) eq_refl eq_refl).
Defined.

(** Against C3 as stated: an instance built without a key-up function
    (the guard of line 66 allows it) hears key_down_fn twice in a row when
    the combo is held, released and held again. *)
Lemma callbacks_repeat_without_key_up_fn :
  keycombo_probe (hdr := msm8996_headers) (Some reset_pdata) sample_env =
    Probed reset_state /\
  callbacks
    (calls (run (hdr := msm8996_headers) (fresh reset_state)
              press_release_press)) = [on_key_down; on_key_down] /\
  ~ alternates on_key_down
      (callbacks
         (calls (run (hdr := msm8996_headers) (fresh reset_state)
                   press_release_press))).
Proof.
  assert (Hrun : callbacks
            (calls (run (hdr := msm8996_headers) (fresh reset_state)
                      press_release_press)) = [on_key_down; on_key_down])
    by (vm_compute; reflexivity).
  split; [vm_compute; reflexivity|]. split; [exact Hrun|].
  rewrite Hrun. intros Halt.
  inversion Halt as [|f l Htail]; subst.
  inversion Htail.
Qed.

(** * Further properties of the handler *)

Section HandlerMore.

Context {hdr : Headers} {K : Type} {kern : Kernel K}.

Lemma settle_config (state : keycombo_state) :
  delay (settle state) = delay state /\
  key_down_fn (settle state) = key_down_fn state /\
  key_up_fn (settle state) = key_up_fn state.
Proof.
  unfold settle.
  destruct (combo_complete state); [repeat split|].
  destruct (negb (key_is_down state =? 0)); repeat split.
Qed.

Lemma combo_complete_settle (state : keycombo_state) :
  combo_complete (settle state) = combo_complete state.
Proof.
  destruct (settle_fields state) as (_ & _ & _ & Ht & Hd & Hu).
  unfold combo_complete. rewrite Ht, Hd, Hu. reflexivity.
Qed.


Lemma transition_inside_lock (state : keycombo_state) (k : K) :
  forallb inside_lock (result_log (transition state k)) = true.
Proof.
  unfold transition, bind, call, ask, ret.
  destruct (combo_complete state).
  - destruct (kbool (queue_delayed_work _) _) as [[] ?]; reflexivity.
  - destruct (negb (key_is_down state =? 0)); [|reflexivity].
    destruct (kbool cancel_delayed_work k) as [[] ?]; cbn [negb].
    + reflexivity.
    + destruct (kbool queue_work _) as [? ?]. reflexivity.
Qed.

(** X2: a call of [keycombo_event] either makes no call at all, or takes
    the lock first and releases it last, and in between neither touches
    the lock again nor invokes a callback of the client: the callbacks
    are only ever run from the work functions. *)
Theorem keycombo_event_lock_discipline
    (state : keycombo_state) (type code value : Z) (k : K) :
  result_log (keycombo_event state type code value k) = [] \/
  exists middle,
    result_log (keycombo_event state type code value k) =
      Did spin_lock_irqsave :: middle ++ [Did spin_unlock_irqrestore] /\
    forallb inside_lock middle = true.
Proof.
  destruct (accepted state type code value) eqn:Hacc.
  - right. rewrite keycombo_event_accepted by assumption.
    pose proof (transition_inside_lock (account code value state)
                  (kvoid spin_lock_irqsave k)) as Hin.
    destruct (transition _ _) as [[s1 k1] l1].
    exists l1. split; [reflexivity|exact Hin].
  - destruct (accepted_false_cases _ _ _ _ Hacc) as [Hearly|[Hpre Hdup]].
    + left. rewrite keycombo_event_early by assumption. reflexivity.
    + right. rewrite keycombo_event_repeat by assumption.
      exists []. split; reflexivity.
Qed.

Lemma next_state_frame (state : keycombo_state) (type code value : Z) :
  keybit (next_state state type code value) = keybit state /\
  upbit (next_state state type code value) = upbit state /\
  key_down_target (next_state state type code value) = key_down_target state /\
  delay (next_state state type code value) = delay state /\
  key_down_fn (next_state state type code value) = key_down_fn state /\
  key_up_fn (next_state state type code value) = key_up_fn state.
Proof.
  unfold next_state.
  destruct (accepted state type code value); [|repeat split].
  destruct (settle_fields (account code value state)) as (-> & -> & _ & -> & _).
  destruct (settle_config (account code value state)) as (-> & -> & ->).
  destruct (account_fields code value state) as (-> & -> & _ & -> & _).
  destruct (account_fns code value state) as (-> & -> & ->).
  repeat split.
Qed.

(** X3: [keycombo_event] never changes the configuration of the
    instance (tracked set, up set, target, delay, function pointers), and
    of the pressed bits it can only change the one of the event's code. *)
Theorem keycombo_event_frame
    (state : keycombo_state) (type code value : Z) (k : K) :
  keybit (result_state (keycombo_event state type code value k))
    = keybit state /\
  upbit (result_state (keycombo_event state type code value k))
    = upbit state /\
  key_down_target (result_state (keycombo_event state type code value k))
    = key_down_target state /\
  delay (result_state (keycombo_event state type code value k))
    = delay state /\
  key_down_fn (result_state (keycombo_event state type code value k))
    = key_down_fn state /\
  key_up_fn (result_state (keycombo_event state type code value k))
    = key_up_fn state /\
  forall c, c <> code ->
    test_bit c (key (result_state (keycombo_event state type code value k)))
    = test_bit c (key state).
Proof.
  rewrite keycombo_event_state.
  destruct (next_state_frame state type code value)
    as (H1 & H2 & H3 & H4 & H5 & H6).
  repeat (split; [assumption|]).
  intros c Hne. unfold next_state.
  destruct (accepted state type code value) eqn:Hacc; [|reflexivity].
  destruct (accepted_code_range _ _ _ _ Hacc) as [[Hlo _] _].
  destruct (settle_fields (account code value state)) as (_ & _ & -> & _).
  destruct (account_fields code value state) as (_ & _ & -> & _).
  rewrite test_bit_change by assumption.
  replace (code =? c) with false by (symmetry; apply Z.eqb_neq; congruence).
  apply xorb_false_r.
Qed.

End HandlerMore.

Section HandlerSequences.

Context {hdr : Headers} {K : Type} {kern : Kernel K}.

Lemma key_down_settle (state : keycombo_state) :
  key_down (settle state) = key_down state.
Proof. apply settle_fields. Qed.

Lemma key_up_settle (state : keycombo_state) :
  key_up (settle state) = key_up state.
Proof. apply settle_fields. Qed.

Lemma change_bit_twice (code addr : Z) :
  __change_bit code (__change_bit code addr) = addr.
Proof.
  unfold __change_bit.
  rewrite Z.lxor_assoc, Z.lxor_nilpotent, Z.lxor_0_r. reflexivity.
Qed.

Lemma sint32_there_and_back (z : Z) :
  in_int z -> sint32 (sint32 (z + 1) - 1) = z /\ sint32 (sint32 (z - 1) + 1) = z.
Proof.
  intros Hz. split.
  - replace (sint32 (z + 1) - 1) with (sint32 (z + 1) + -1) by lia.
    rewrite sint32_idem_l. replace (z + 1 + -1) with z by lia.
    apply sint32_small. exact Hz.
  - rewrite sint32_idem_l. replace (z - 1 + 1) with z by lia.
    apply sint32_small. exact Hz.
Qed.

(** X4: a state-changing event on a key followed by the opposite event
    on the same key (press then release, or release then press) brings
    the pressed bits and both counters back to what they were, provided
    the counters were within the range of [int]. *)
Theorem keycombo_event_press_release
    (state : keycombo_state) (type code value value' : Z) (k k' : K) :
  accepted state type code value = true ->
  (value' =? 0) = negb (value =? 0) ->
  in_int (key_down state) -> in_int (key_up state) ->
  key (result_state
         (keycombo_event
            (result_state (keycombo_event state type code value k))
            type code value' k')) = key state /\
  key_down (result_state
              (keycombo_event
                 (result_state (keycombo_event state type code value k))
                 type code value' k')) = key_down state /\
  key_up (result_state
            (keycombo_event
               (result_state (keycombo_event state type code value k))
               type code value' k')) = key_up state.
Proof.
  intros Hacc Hopp Hd Hu.
  rewrite !keycombo_event_state.
  assert (Hn : next_state state type code value =
               settle (account code value state))
    by (unfold next_state; rewrite Hacc; reflexivity).
  rewrite Hn.
  destruct (accepted_code_range _ _ _ _ Hacc) as [[Hlo Hhi] [Htr Hbit]].
  destruct (settle_fields (account code value state))
    as (Hkb & Hub & Hkey & _ & Hkd & Hku).
  destruct (account_fields code value state) as (Hkb' & Hub' & Hkey' & _).
  assert (Hacc' : accepted (settle (account code value state))
                    type code value' = true).
  { unfold accepted in *. rewrite Hkb, Hkb', Hkey, Hkey'.
    rewrite test_bit_change, Hbit, Z.eqb_refl, Hopp by assumption.
    repeat (apply andb_prop in Hacc; destruct Hacc as [Hacc ?]).
    rewrite Hacc, Htr.
    replace (negb (code >=? KEY_MAX)) with true by (symmetry; assumption).
    destruct (value =? 0); reflexivity. }
  unfold next_state. rewrite Hacc'.
  destruct (settle_fields (account code value' (settle (account code value state))))
    as (_ & _ & -> & _ & -> & ->).
  destruct (sint32_there_and_back _ Hd) as [Hd1 Hd2].
  destruct (sint32_there_and_back _ Hu) as [Hu1 Hu2].
  unfold account at 1 3 5. cbn [upbit set_key key key_down key_up].
  rewrite Hub, Hub', Hkey, Hkey', Hkd, Hku, Hopp.
  unfold account. cbn [upbit set_key].
  destruct (test_bit code (upbit state)), (value =? 0); cbn [negb];
    cbn [key key_down key_up set_key set_key_up set_key_down];
    rewrite change_bit_twice, ?key_down_settle, ?key_up_settle;
    cbn [key key_down key_up set_key set_key_up set_key_down];
    repeat split; assumption.
Qed.

(** The configuration and the invariants along the reachable states. *)
Lemma reachable_config (s0 state : keycombo_state) :
  reachable (K := K) s0 state ->
  keybit state = keybit s0 /\ upbit state = upbit s0 /\
  key_down_target state = key_down_target s0 /\
  key_down_fn state = key_down_fn s0 /\ key_up_fn state = key_up_fn s0.
Proof.
  intros Hreach.
  induction Hreach as [|state type code value k Hreach IH];
    [repeat split|].
  rewrite keycombo_event_state.
  destruct (next_state_frame state type code value)
    as (-> & -> & -> & _ & -> & ->).
  exact IH.
Qed.

Lemma reachable_counters_agree (s0 state : keycombo_state) :
  KEY_MAX <= INT_MAX -> initial s0 ->
  reachable (K := K) s0 state -> counters_agree state.
Proof.
  intros Hmax (Hkey & Hd & Hu & _) Hreach.
  induction Hreach as [|state type code value k Hreach IH].
  - unfold counters_agree.
    rewrite Hkey, Hd, Hu, !pressed_count_zero. split; reflexivity.
  - rewrite keycombo_event_state. unfold next_state.
    destruct (accepted state type code value) eqn:Hacc; [|exact IH].
    apply settle_counters_agree.
    eapply account_counters_agree; eassumption.
Qed.

Lemma combo_complete_iff (state : keycombo_state) :
  combo_complete state = true <->
  key_down state = key_down_target state /\ key_up state = 0.
Proof.
  split; [apply combo_complete_true|].
  intros [Hd Hu]. unfold combo_complete.
  rewrite Hd, Hu, Z.eqb_refl. reflexivity.
Qed.

Lemma settle_exact (state : keycombo_state) :
  (key_is_down (settle state) <> 0 <-> combo_complete (settle state) = true) /\
  (key_is_down (settle state) = 0 \/ key_is_down (settle state) = 1).
Proof.
  rewrite combo_complete_settle. unfold settle.
  destruct (combo_complete state) eqn:Hcc.
  - cbn. split; [split; [reflexivity|intros _; lia]|right; reflexivity].
  - destruct (key_is_down state =? 0) eqn:Hk; cbn [negb].
    + apply Z.eqb_eq in Hk.
      split; [split; [contradiction|discriminate]|left; exact Hk].
    + cbn. split; [split; [intros Hne; contradiction Hne; reflexivity
                          |discriminate]|left; reflexivity].
Qed.

(** X5: for an instance whose target is not 0, in every state reachable
    from the all-zero state the phase flag [key_is_down] is set exactly
    when the combo condition holds, and it is 0 or 1. *)
Theorem phase_exactly_when_combo_complete (s0 state : keycombo_state) :
  initial s0 ->
  key_down_target s0 <> 0 ->
  reachable (K := K) s0 state ->
  (key_is_down state <> 0 <-> combo_complete state = true) /\
  (key_is_down state = 0 \/ key_is_down state = 1).
Proof.
  intros (_ & Hd & _ & Hk) Ht Hreach.
  induction Hreach as [|state type code value k Hreach IH].
  - split; [|left; exact Hk]. rewrite Hk. split; [contradiction|].
    intros Hcc. apply combo_complete_true in Hcc. destruct Hcc as [Hcc _].
    congruence.
  - rewrite keycombo_event_state. unfold next_state.
    destruct (accepted state type code value); [|exact IH].
    apply settle_exact.
Qed.

End HandlerSequences.

(** * What a constructed instance detects *)

Lemma filter_and_length_le (l : list Z) (f g : Z -> bool) :
  (length (filter (fun c => f c && g c) l) <= length (filter f l))%nat.
Proof.
  induction l as [|a l IH]; [apply le_n|].
  cbn [filter]. destruct (f a), (g a); cbn [andb length]; lia.
Qed.

Lemma filter_and_all (l : list Z) (f g : Z -> bool) :
  length (filter (fun c => f c && g c) l) = length (filter f l) <->
  forall c, In c l -> f c = true -> g c = true.
Proof.
  induction l as [|a l IH]; [split; [intros _ c []|reflexivity]|].
  pose proof (filter_and_length_le l f g) as Hle.
  cbn [filter]. destruct (f a) eqn:Hf, (g a) eqn:Hg; cbn [andb length].
  - split.
    + intros Hlen c [<-|Hin] Hc; [exact Hg|].
      apply IH; [lia|assumption|assumption].
    + intros Hall. f_equal. apply IH. intros c Hin. apply Hall. right. exact Hin.
  - split; [intros Hlen; lia|].
    intros Hall. specialize (Hall a (or_introl eq_refl) Hf). congruence.
  - rewrite IH. split.
    + intros Hall c [<-|Hin] Hc; [congruence|auto].
    + intros Hall c Hin. apply Hall. right. exact Hin.
  - rewrite IH. split.
    + intros Hall c [<-|Hin] Hc; [congruence|auto].
    + intros Hall c Hin. apply Hall. right. exact Hin.
Qed.

Lemma filter_none (l : list Z) (h : Z -> bool) :
  length (filter h l) = 0%nat <-> forall c, In c l -> h c = false.
Proof.
  induction l as [|a l IH]; [split; [intros _ c []|reflexivity]|].
  cbn [filter]. destruct (h a) eqn:Ha; cbn [length].
  - split; [discriminate|].
    intros Hall. specialize (Hall a (or_introl eq_refl)). congruence.
  - rewrite IH. split.
    + intros Hall c [<-|Hin]; auto.
    + intros Hall c Hin. apply Hall. right. exact Hin.
Qed.

Lemma listed_In (c : Z) (keys : list Z) : listed c keys = true <-> In c keys.
Proof.
  unfold listed. rewrite existsb_exists. split.
  - intros (x & Hin & Heq). apply Z.eqb_eq in Heq. subst x. exact Hin.
  - intros Hin. exists c. split; [exact Hin|apply Z.eqb_refl].
Qed.

Section Detection.

Context {hdr : Headers}.

Lemma kept_In (c : Z) (keys : list Z) :
  Forall (fun k => 0 < k) keys ->
  In c (kept keys) -> In c keys /\ 0 < c < KEY_MAX.
Proof.
  intros Hpos Hin. unfold kept in Hin. apply filter_In in Hin.
  destruct Hin as [Hin Hlt]. apply Z.ltb_lt in Hlt.
  rewrite Forall_forall in Hpos. specialize (Hpos c Hin).
  split; [exact Hin|lia].
Qed.

Lemma kept_codes (keys : list Z) :
  Forall (fun k => 0 < k) keys -> incl (kept keys) codes.
Proof.
  intros Hpos c Hin. apply codes_In.
  destruct (kept_In c keys Hpos Hin) as [_ Hc]. lia.
Qed.

(** The codes of a duplicate-free list, counted among all codes. *)
Lemma listed_total (L : list Z) :
  NoDup L -> incl L codes ->
  length (filter (fun c => listed c L) codes) = length L.
Proof.
  intros Hnd Hincl.
  apply Nat.le_antisymm.
  - apply NoDup_incl_length.
    + apply NoDup_filter, codes_NoDup.
    + intros c Hin. apply filter_In in Hin. apply listed_In, Hin.
  - apply NoDup_incl_length; [exact Hnd|].
    intros c Hin. apply filter_In. split; [apply Hincl, Hin|].
    apply listed_In, Hin.
Qed.

Lemma pressed_all_iff (L : list Z) (pressed : Z) :
  NoDup L -> incl L codes ->
  pressed_count (fun c => listed c L) pressed = Z.of_nat (length L) <->
  forall c, In c L -> test_bit c pressed = true.
Proof.
  intros Hnd Hincl. unfold pressed_count.
  rewrite <- (listed_total L Hnd Hincl), Nat2Z.inj_iff, filter_and_all.
  split.
  - intros Hall c Hin. apply Hall; [apply Hincl, Hin|apply listed_In, Hin].
  - intros Hall c _ Hc. apply Hall, listed_In, Hc.
Qed.

Lemma pressed_none_iff (L : list Z) (pressed : Z) :
  incl L codes ->
  pressed_count (fun c => listed c L) pressed = 0 <->
  forall c, In c L -> test_bit c pressed = false.
Proof.
  intros Hincl. unfold pressed_count.
  change 0 with (Z.of_nat 0). rewrite Nat2Z.inj_iff, filter_none.
  split.
  - intros Hall c Hin. specialize (Hall c (Hincl c Hin)).
    replace (listed c L) with true in Hall
      by (symmetry; apply listed_In, Hin).
    exact Hall.
  - intros Hall c _. destruct (listed c L) eqn:Hl; [|reflexivity].
    apply Hall, listed_In, Hl.
Qed.

Lemma pressed_count_ext (m m' : Z -> bool) (pressed : Z) :
  (forall c, m c = m' c) -> pressed_count m pressed = pressed_count m' pressed.
Proof.
  intros Hext. unfold pressed_count. do 2 f_equal.
  apply filter_ext. intros c. rewrite Hext. reflexivity.
Qed.

(** What [keycombo_probe] leaves in the state it returns. *)
Lemma probed_fields (pdata : keycombo_platform_data) (env : probe_env)
    (downs ups : list Z) (s0 : keycombo_state) :
  terminated (keys_down pdata) downs ->
  match keys_up pdata with
  | Some arr => terminated arr ups
  | None => ups = []
  end ->
  keycombo_probe (Some pdata) env = Probed s0 ->
  initial s0 /\
  key_down_target s0 = sint32 (Z.of_nat (length (kept downs))) /\
  (forall c, test_bit c (keybit s0) =
             listed c (kept downs) || listed c (kept ups)) /\
  (forall c, test_bit c (upbit s0) = listed c (kept ups)) /\
  key_down_fn s0 = pdata_key_down_fn pdata /\
  key_up_fn s0 = pdata_key_up_fn pdata.
Proof.
  intros Hdown Hup Hprobe.
  destruct (probe_scans pdata downs ups Hdown Hup)
    as (s1 & s2 & Hs1 & Hs2 & Ht & Hb & Hu & Hk & Hd & Hku & Hkid).
  unfold keycombo_probe in Hprobe. rewrite Hs1, Hs2 in Hprobe.
  destruct (negb (state_allocated env)); [discriminate|].
  destruct (negb (workqueue_allocated env)); [discriminate|].
  destruct (negb (register_handler_ret env =? 0)); [discriminate|].
  injection Hprobe as <-. cbn.
  repeat split; assumption.
Qed.

End Detection.

Section DetectionClaims.

Context {hdr : Headers} {K : Type} {kern : Kernel K}.

Lemma reachable_phase_sound (s0 state : keycombo_state) :
  initial s0 -> reachable (K := K) s0 state ->
  key_is_down state <> 0 -> combo_complete state = true.
Proof.
  intros (_ & _ & _ & Hk) Hreach.
  induction Hreach as [|state type code value k Hreach IH];
    [intros Hne; contradiction|].
  rewrite keycombo_event_state. unfold next_state.
  destruct (accepted state type code value); [|exact IH].
  apply settle_exact.
Qed.

Lemma reachable_phase_complete (s0 state : keycombo_state) :
  initial s0 -> key_down_target s0 <> 0 -> reachable (K := K) s0 state ->
  combo_complete state = true -> key_is_down state <> 0.
Proof.
  intros (_ & Hd & _ & Hk) Ht Hreach.
  induction Hreach as [|state type code value k Hreach IH].
  - intros Hcc. apply combo_complete_true in Hcc. destruct Hcc. congruence.
  - rewrite keycombo_event_state. unfold next_state.
    destruct (accepted state type code value); [|exact IH].
    apply settle_exact.
Qed.

(** X6: an instance built by [keycombo_probe] from well-formed arrays
    whose kept down keys are distinct, at least one, and none of them is
    also an up key, detects exactly its combination: in every state the
    events lead to, the phase flag is set if and only if every kept down
    key has its pressed bit set and no kept up key has. *)
Theorem probed_instance_detects_combo
    (pdata : keycombo_platform_data) (env : probe_env)
    (downs ups : list Z) (s0 state : keycombo_state) :
  KEY_MAX <= INT_MAX ->
  terminated (keys_down pdata) downs ->
  match keys_up pdata with
  | Some arr => terminated arr ups
  | None => ups = []
  end ->
  NoDup (kept downs) ->
  kept downs <> [] ->
  (forall c, In c (kept downs) -> ~ In c (kept ups)) ->
  keycombo_probe (Some pdata) env = Probed s0 ->
  reachable (K := K) s0 state ->
  (key_is_down state <> 0 <->
   (forall c, In c (kept downs) -> test_bit c (key state) = true) /\
   (forall c, In c (kept ups) -> test_bit c (key state) = false)).
Proof.
  intros Hmax Hdown Hup Hnd Hne Hdisj Hprobe Hreach.
  destruct (probed_fields pdata env downs ups s0 Hdown Hup Hprobe)
    as (Hinit & Ht & Hb & Hu & _).
  assert (Hposd : Forall (fun k => 0 < k) downs) by apply Hdown.
  assert (Hposu : Forall (fun k => 0 < k) ups).
  { destruct (keys_up pdata); [apply Hup|subst ups; constructor]. }
  pose proof (kept_codes downs Hposd) as Hincd.
  pose proof (kept_codes ups Hposu) as Hincu.
  assert (Hlen : 0 < Z.of_nat (length (kept downs)) <= INT_MAX).
  { pose proof (NoDup_incl_length Hnd Hincd) as Hle.
    unfold codes in Hle at 1. rewrite length_map, length_seq in Hle.
    destruct (kept downs); [contradiction Hne; reflexivity|].
    cbn [length] in *. lia. }
  rewrite sint32_small in Ht by (unfold in_int, INT_MAX in *; lia).
  destruct (reachable_config s0 state Hreach) as (Hkb & Hub & Htg & _).
  destruct (reachable_counters_agree s0 state Hmax Hinit Hreach) as [Hcd Hcu].
  assert (Hdk : forall c, is_down_key state c = listed c (kept downs)).
  { intros c. unfold is_down_key. rewrite Hkb, Hub, Hb, Hu.
    destruct (listed c (kept downs)) eqn:Hl, (listed c (kept ups)) eqn:Hl';
      try reflexivity.
    apply listed_In in Hl, Hl'. contradiction (Hdisj c Hl Hl'). }
  assert (Huk : forall c, is_up_key state c = listed c (kept ups)).
  { intros c. unfold is_up_key. rewrite Hub, Hu. reflexivity. }
  rewrite (pressed_count_ext _ _ _ Hdk) in Hcd.
  rewrite (pressed_count_ext _ _ _ Huk) in Hcu.
  rewrite <- (pressed_all_iff (kept downs) (key state) Hnd Hincd).
  rewrite <- (pressed_none_iff (kept ups) (key state) Hincu).
  rewrite <- Hcd, <- Hcu, <- Ht, <- Htg, <- combo_complete_iff.
  split.
  - apply (reachable_phase_sound s0 state Hinit Hreach).
  - apply (reachable_phase_complete s0 state Hinit); [|exact Hreach].
    rewrite Ht. lia.
Qed.

(** X7: when a kept down key is listed twice in the down array, or is
    also listed as an up key, the target counts more down keys than the
    handler can ever count as pressed, so the instance never detects
    anything: the phase flag stays 0 in every state the events lead to
    (the array is short enough for the target not to wrap). *)
Theorem probed_instance_never_completes
    (pdata : keycombo_platform_data) (env : probe_env)
    (downs ups : list Z) (s0 state : keycombo_state) :
  KEY_MAX <= INT_MAX ->
  Z.of_nat (length (kept downs)) <= INT_MAX ->
  terminated (keys_down pdata) downs ->
  match keys_up pdata with
  | Some arr => terminated arr ups
  | None => ups = []
  end ->
  ~ NoDup (kept downs) \/ (exists c, In c (kept downs) /\ In c (kept ups)) ->
  keycombo_probe (Some pdata) env = Probed s0 ->
  reachable (K := K) s0 state ->
  key_is_down state = 0.
Proof.
  intros Hmax Hshort Hdown Hup Hbad Hprobe Hreach.
  destruct (probed_fields pdata env downs ups s0 Hdown Hup Hprobe)
    as (Hinit & Ht & Hb & Hu & _).
  rewrite sint32_small in Ht by (unfold in_int, INT_MAX in *; lia).
  destruct (reachable_config s0 state Hreach) as (Hkb & Hub & Htg & _).
  destruct (reachable_counters_agree s0 state Hmax Hinit Hreach) as [Hcd _].
  assert (Hdk : forall c, is_down_key state c =
                          listed c (kept downs) && negb (listed c (kept ups))).
  { intros c. unfold is_down_key. rewrite Hkb, Hub, Hb, Hu.
    destruct (listed c (kept downs)), (listed c (kept ups)); reflexivity. }
  set (F := filter (is_down_key state) codes).
  assert (HF : NoDup F) by apply NoDup_filter, codes_NoDup.
  assert (Hin : forall c, In c F ->
                  In c (kept downs) /\ ~ In c (kept ups)).
  { intros c Hc. apply filter_In in Hc. destruct Hc as [_ Hc].
    rewrite Hdk in Hc. apply andb_prop in Hc. destruct Hc as [Hc Hc'].
    split; [apply listed_In, Hc|].
    intros Hu'. apply listed_In in Hu'. rewrite Hu' in Hc'. discriminate. }
  assert (Hlt : (length F < length (kept downs))%nat).
  { destruct Hbad as [Hdup|(c & Hcd' & Hcu')].
    - destruct (Nat.lt_ge_cases (length F) (length (kept downs)))
        as [|Hge]; [assumption|].
      contradiction Hdup.
      apply (NoDup_incl_NoDup HF Hge). intros c Hc. apply Hin, Hc.
    - apply Nat.le_lt_trans with (length (remove Z.eq_dec c (kept downs))).
      + apply NoDup_incl_length; [exact HF|].
        intros x Hx. destruct (Hin x Hx) as [Hxd Hxu].
        apply in_in_remove; [|exact Hxd]. intros ->. contradiction.
      + apply remove_length_lt. exact Hcd'. }
  assert (Hkd : key_down state < key_down_target state).
  { rewrite Htg, Ht, Hcd. unfold pressed_count.
    pose proof (filter_and_length_le codes (is_down_key state)
                  (fun c => test_bit c (key state))) as Hle.
    fold F in Hle. lia. }
  destruct (Z.eq_dec (key_is_down state) 0) as [|Hne]; [assumption|].
  pose proof (reachable_phase_sound s0 state Hinit Hreach Hne) as Hcc.
  apply combo_complete_true in Hcc. lia.
Qed.

(** C1, as the code has it: for an instance built by [keycombo_probe]
    from well-formed arrays, after every sequence of [keycombo_event]
    calls [key_up] is the number of kept up keys whose pressed bit is set
    in [state->key], and [key_down] is the number of kept down keys that
    are not also up keys whose pressed bit is set; so when no down key is
    also an up key, [key_down] is the number of kept down keys whose
    pressed bit is set (KEY_MAX fits an [int]). *)
Theorem counters_track_listed_keys
    (pdata : keycombo_platform_data) (env : probe_env)
    (downs ups : list Z) (s0 state : keycombo_state) :
  KEY_MAX <= INT_MAX ->
  terminated (keys_down pdata) downs ->
  match keys_up pdata with
  | Some arr => terminated arr ups
  | None => ups = []
  end ->
  keycombo_probe (Some pdata) env = Probed s0 ->
  reachable (K := K) s0 state ->
  key_down state =
    pressed_count
      (fun c => listed c (kept downs) && negb (listed c (kept ups)))
      (key state) /\
  key_up state = pressed_count (fun c => listed c (kept ups)) (key state) /\
  ((forall c, In c (kept downs) -> ~ In c (kept ups)) ->
   key_down state =
     pressed_count (fun c => listed c (kept downs)) (key state)).
Proof.
  intros Hmax Hdown Hup Hprobe Hreach.
  destruct (probed_fields pdata env downs ups s0 Hdown Hup Hprobe)
    as (Hinit & _ & Hb & Hu & _).
  destruct (reachable_config s0 state Hreach) as (Hkb & Hub & _).
  destruct (reachable_counters_agree s0 state Hmax Hinit Hreach) as [Hcd Hcu].
  assert (Hdk : forall c, is_down_key state c =
                          listed c (kept downs) && negb (listed c (kept ups))).
  { intros c. unfold is_down_key. rewrite Hkb, Hub, Hb, Hu.
    destruct (listed c (kept downs)), (listed c (kept ups)); reflexivity. }
  assert (Huk : forall c, is_up_key state c = listed c (kept ups)).
  { intros c. unfold is_up_key. rewrite Hub, Hu. reflexivity. }
  rewrite (pressed_count_ext _ _ _ Hdk) in Hcd.
  rewrite (pressed_count_ext _ _ _ Huk) in Hcu.
  split; [exact Hcd|]. split; [exact Hcu|].
  intros Hdisj. rewrite Hcd. apply pressed_count_ext. intros c.
  destruct (listed c (kept downs)) eqn:Hl, (listed c (kept ups)) eqn:Hl';
    try reflexivity.
  apply listed_In in Hl, Hl'. contradiction (Hdisj c Hl Hl').
Qed.

End DetectionClaims.

(** * The kernel objects of an instance *)

Section Bookkeeping.

Context {hdr : Headers}.

Ltac split_kernel k :=
  let lt := fresh "lt" in let ha := fresh "ha" in let ua := fresh "ua" in
  let tp := fresh "tp" in let wl := fresh "wl" in let cur := fresh "cur" in
  destruct k as [lt ha ua tp wl cur];
  unfold pending_ok in *; cbn [worklist timer_pending] in *;
  destruct wl as [|[] [|[] [|? ?]]]; destruct tp; try contradiction.

Lemma event_wake_ok (dn up : bool) (sys : system) (type code value : Z) :
  system_ok dn up sys -> wake_ok sys ->
  wake_ok (step sys (input_event type code value)).
Proof.
  destruct sys as [s k c r].
  intros (Hshape & Hexp & Hphase & _) (Hlock & Hheld & Hupw & Hsub).
  cbn [drv krn calls ran] in *.
  unfold step. cbn [drv krn calls ran].
  destruct (accepted s type code value) eqn:Hacc.
  2:{ destruct (accepted_false_cases _ _ _ _ Hacc) as [Hearly|[Hpre Hdup]].
      - rewrite keycombo_event_early by assumption.
        rewrite app_nil_r. repeat split; assumption.
      - rewrite keycombo_event_repeat by assumption.
        unfold wake_ok. cbn [drv krn calls ran].
        rewrite forallb_app, Hsub.
        destruct k; repeat split; assumption. }
  rewrite keycombo_event_accepted by assumption.
  destruct (account_fields code value s) as (_ & _ & _ & _ & Hkid).
  unfold transition.
  destruct (combo_complete (account code value s)) eqn:Hcc.
  - assert (Hk0 : key_is_down s = 0).
    { destruct (Z.eq_dec (key_is_down s) 0) as [|Hne]; [assumption|].
      rewrite (account_breaks_combo s type code value (Hphase Hne)) in Hcc.
      discriminate. }
    rewrite Hk0 in Hexp. cbn [Z.eqb] in Hexp.
    unfold expected_after, in_flight in Hexp.
    rewrite fold_left_app in Hexp.
    unfold bind, call, ask, ret, wake_ok.
    cbn [kbool kvoid kernel_model].
    split_kernel k; cbn [current worklist timer_pending] in Hexp;
      remember (fold_left expect_step r (Some key_down_work)) as x eqn:Hx;
      destruct cur as [[]|]; destruct x as [[]|]; cbn in Hexp;
      try discriminate.
    all: cbn -[Z.eqb combo_complete account forallb] in *.
    all: match goal with
         | |- context [delay ?a =? 0] => destruct (delay a =? 0)
         end.
    all: cbn -[Z.eqb combo_complete account forallb] in *.
    all: rewrite forallb_app, Hsub.
    all: repeat split; try assumption; try reflexivity.
  - destruct (key_is_down (account code value s) =? 0) eqn:Hk; cbn [negb].
    + unfold bind, call, ret, wake_ok. cbn [kvoid kernel_model].
      rewrite Hkid in Hk. rewrite Hk in Hheld.
      cbn -[Z.eqb combo_complete account forallb].
      rewrite Hkid, Hk, forallb_app, Hsub.
      destruct k. repeat split; assumption.
    + rewrite Hkid in Hk. rewrite Hk in Hexp.
      unfold expected_after, in_flight in Hexp.
      rewrite fold_left_app in Hexp.
      unfold bind, call, ask, ret, wake_ok.
      cbn [kbool kvoid kernel_model].
      split_kernel k; cbn [current worklist timer_pending] in Hexp;
        remember (fold_left expect_step r (Some key_down_work)) as x eqn:Hx;
        destruct cur as [[]|]; destruct x as [[]|]; cbn in Hexp;
        try discriminate.
      all: cbn -[Z.eqb combo_complete account forallb] in *.
      all: rewrite forallb_app, Hsub.
      all: repeat split; try assumption; try reflexivity.
Qed.


Lemma worker_wake_ok (dn up : bool) (sys : system) (a : action) :
  match a with input_event _ _ _ => False | _ => True end ->
  system_ok dn up sys -> wake_ok sys -> wake_ok (step sys a).
Proof.
  destruct sys as [s k c r].
  intros Ha (Hshape & Hexp & _ & Hdn & Hup & _) (Hlock & Hheld & Hupw & Hsub).
  cbn [drv krn calls ran] in *.
  unfold expected_after, in_flight in Hexp. rewrite fold_left_app in Hexp.
  remember (fold_left expect_step r (Some key_down_work)) as x eqn:Hx.
  destruct a as [? ? ?| | |]; [contradiction| | |];
    unfold step, wake_ok, in_flight, do_key_down, do_key_up, bind, call, ret
      in *;
    cbn [drv krn calls ran] in *.
  - split_kernel k; cbn in *; repeat split; assumption.
  - split_kernel k; destruct cur as [[]|]; cbn in *;
      repeat split; assumption.
  - split_kernel k; destruct cur as [[]|]; destruct x as [[]|];
      destruct (key_is_down s =? 0) eqn:Hk; cbn in Hexp; try discriminate;
      rewrite ?Hdn, ?Hup; destruct dn, up;
      cbn -[forallb Z.eqb] in *; rewrite ?forallb_app, ?Hsub, ?Hk;
      repeat split; try assumption; try reflexivity.
Qed.

Lemma step_wake_ok (dn up : bool) (sys : system) (a : action) :
  system_ok dn up sys -> wake_ok sys -> wake_ok (step sys a).
Proof.
  destruct a as [type code value| | |].
  - apply event_wake_ok.
  - apply worker_wake_ok. exact I.
  - apply worker_wake_ok. exact I.
  - apply worker_wake_ok. exact I.
Qed.

Lemma run_wake_ok (dn up : bool) (l : list action) (sys : system) :
  system_ok dn up sys -> wake_ok sys -> wake_ok (run sys l).
Proof.
  revert sys. induction l as [|a l IH]; intros sys Hok Hw; [exact Hw|].
  cbn [run fold_left]. apply IH.
  - apply step_ok, Hok.
  - eapply step_wake_ok; eassumption.
Qed.

Lemma fresh_wake_ok (state : keycombo_state) :
  initial state -> wake_ok (fresh state).
Proof.
  intros (_ & _ & _ & Hk). unfold wake_ok, fresh. cbn. rewrite Hk.
  repeat split.
Qed.

(** X8: from a new instance, after any events, timer expiries and worker
    steps, the lock is free, the held wake-up source is active exactly
    while the phase flag is set, and the releasing wake-up source is
    active exactly while a key-up work is queued or being run. *)
Theorem wake_sources_follow_phase (state : keycombo_state) (l : list action) :
  initial state ->
  lock_taken (krn (run (fresh state) l)) = false /\
  held_awake (krn (run (fresh state) l)) =
    negb (key_is_down (drv (run (fresh state) l)) =? 0) /\
  up_awake (krn (run (fresh state) l)) =
    queued key_up_work (in_flight (krn (run (fresh state) l))).
Proof.
  intros Hinit.
  destruct (run_wake_ok _ _ l _ (fresh_ok state Hinit)
              (fresh_wake_ok state Hinit)) as (Hlock & Hheld & Hup & _).
  repeat split; assumption.
Qed.

(** X9: from a new instance, no work is ever submitted while it is
    still pending: every [queue_delayed_work] and every [queue_work] the
    handler makes answers true. *)
Theorem submissions_never_pending (state : keycombo_state) (l : list action) :
  initial state ->
  forall e, In e (calls (run (fresh state) l)) ->
    match e with
    | Got (queue_delayed_work _) r => r = true
    | Got queue_work r => r = true
    | _ => True
    end.
Proof.
  intros Hinit e Hin.
  destruct (run_wake_ok _ _ l _ (fresh_ok state Hinit)
              (fresh_wake_ok state Hinit)) as (_ & _ & _ & Hsub).
  rewrite forallb_forall in Hsub. specialize (Hsub e Hin).
  destruct e as [?|[?| |] ?]; try exact I; exact Hsub.
Qed.

End Bookkeeping.

(** * One cycle of the combination *)

Lemma inside_lock_callbacks (l : list kevent) :
  forallb inside_lock l = true -> callbacks l = [].
Proof.
  induction l as [|e l IH]; [reflexivity|].
  cbn [forallb]. intros Hall. apply andb_prop in Hall.
  destruct Hall as [He Hl].
  destruct e as [[| | | | |f]|c r]; cbn in He |- *;
    (discriminate || apply IH, Hl).
Qed.

Section Cycle.

Context {hdr : Headers}.

Lemma combo_change_accepted (s : keycombo_state) (type code value : Z) :
  combo_complete (next_state s type code value) <> combo_complete s ->
  accepted s type code value = true /\
  combo_complete (account code value s) =
    combo_complete (next_state s type code value).
Proof.
  unfold next_state.
  destruct (accepted s type code value); [|intros Hne; contradiction Hne;
                                            reflexivity].
  intros _. split; [reflexivity|]. symmetry. apply combo_complete_settle.
Qed.

(** What an event leaves of the driver state, the works run and the
    callbacks heard. *)
Lemma step_event_outside (sys : system) (type code value : Z) :
  drv (step sys (input_event type code value)) =
    next_state (drv sys) type code value /\
  ran (step sys (input_event type code value)) = ran sys /\
  callbacks (calls (step sys (input_event type code value))) =
    callbacks (calls sys).
Proof.
  unfold step.
  pose proof (keycombo_event_state (drv sys) type code value (krn sys)) as Hs.
  assert (Hcb : callbacks (result_log
                  (keycombo_event (drv sys) type code value (krn sys))) = []).
  { destruct (accepted (drv sys) type code value) eqn:Hacc.
    - rewrite keycombo_event_accepted by assumption.
      pose proof (transition_inside_lock (account code value (drv sys))
                    (kvoid spin_lock_irqsave (krn sys))) as Hin.
      destruct (transition _ _) as [[s1 k1] l1].
      unfold result_log in *. cbn [snd fst] in *. cbn [callbacks].
      rewrite callbacks_app, (inside_lock_callbacks _ Hin). reflexivity.
    - destruct (accepted_false_cases _ _ _ _ Hacc) as [Hearly|[Hpre Hdup]].
      + rewrite keycombo_event_early by assumption. reflexivity.
      + rewrite keycombo_event_repeat by assumption. reflexivity. }
  destruct (keycombo_event (drv sys) type code value (krn sys))
    as [[s1 k1] l1].
  unfold result_state, result_log in *. cbn [fst snd] in *.
  cbn [drv ran calls]. rewrite callbacks_app, Hcb, app_nil_r.
  repeat split. exact Hs.
Qed.

(** The kernel after an event that forms the combo, when the delayed
    work is idle. *)
Lemma krn_step_forms (sys : system) (type code value : Z) :
  combo_complete (drv sys) = false ->
  combo_complete (next_state (drv sys) type code value) = true ->
  timer_pending (krn sys) = false ->
  queued key_down_work (worklist (krn sys)) = false ->
  krn (step sys (input_event type code value)) =
    if delay (drv sys) =? 0 then
      mk_kernel false true (up_awake (krn sys)) false
                (worklist (krn sys) ++ [key_down_work]) (current (krn sys))
    else
      mk_kernel false true (up_awake (krn sys)) true
                (worklist (krn sys)) (current (krn sys)).
Proof.
  intros Hbefore Hafter Htimer Hqueue.
  destruct (combo_change_accepted (drv sys) type code value) as [Hacc Hcc];
    [congruence|].
  rewrite Hafter in Hcc.
  destruct (account_fns code value (drv sys)) as (_ & _ & Hdelay).
  unfold step. rewrite keycombo_event_accepted by assumption.
  unfold transition. rewrite Hcc.
  unfold bind, call, ask, ret. cbn [kbool kvoid kernel_model].
  destruct (krn sys) as [lt ha ua tp wl cur].
  cbn [timer_pending worklist] in Htimer, Hqueue.
  subst tp.
  cbn -[Z.eqb account queued]. rewrite Hqueue, Hdelay.
  destruct (delay (drv sys) =? 0); reflexivity.
Qed.

(** The kernel after an event that breaks the combo. *)
Lemma krn_step_breaks (sys : system) (type code value : Z) :
  key_is_down (drv sys) <> 0 ->
  combo_complete (drv sys) = true ->
  combo_complete (next_state (drv sys) type code value) = false ->
  krn (step sys (input_event type code value)) =
    if timer_pending (krn sys) || queued key_down_work (worklist (krn sys))
    then
      mk_kernel false false (up_awake (krn sys)) false
                (dequeue key_down_work (worklist (krn sys)))
                (current (krn sys))
    else
      mk_kernel false false true (timer_pending (krn sys))
                (if queued key_up_work (worklist (krn sys))
                 then worklist (krn sys)
                 else worklist (krn sys) ++ [key_up_work])
                (current (krn sys)).
Proof.
  intros Hkid Hbefore Hafter.
  destruct (combo_change_accepted (drv sys) type code value) as [Hacc Hcc];
    [congruence|].
  rewrite Hafter in Hcc.
  destruct (account_fields code value (drv sys)) as (_ & _ & _ & _ & Hk).
  unfold step. rewrite keycombo_event_accepted by assumption.
  unfold transition. rewrite Hcc, Hk.
  replace (key_is_down (drv sys) =? 0) with false
    by (symmetry; apply Z.eqb_neq; exact Hkid).
  unfold bind, call, ask, ret. cbn [kbool kvoid kernel_model negb].
  destruct (krn sys) as [lt ha ua tp wl cur].
  cbn -[account queued dequeue].
  destruct (tp || queued key_down_work wl); cbn -[account queued dequeue];
    [reflexivity|].
  destruct (queued key_up_work wl); reflexivity.
Qed.


Lemma in_flight_nil (k : kernel) :
  in_flight k = [] ->
  current k = None /\ worklist k = [] /\ timer_pending k = false.
Proof.
  unfold in_flight.
  destruct (current k), (worklist k), (timer_pending k);
    cbn; intros Hnil; try discriminate; repeat split.
Qed.

Lemma forms_phase (s : keycombo_state) (type code value : Z) :
  combo_complete s = false ->
  combo_complete (next_state s type code value) = true ->
  key_is_down (next_state s type code value) = 1.
Proof.
  intros Hbefore Hafter.
  destruct (combo_change_accepted s type code value) as [Hacc Hcc];
    [congruence|].
  rewrite Hafter in Hcc.
  unfold next_state, settle. rewrite Hacc, Hcc. reflexivity.
Qed.

Lemma breaks_phase (s : keycombo_state) (type code value : Z) :
  combo_complete s = true ->
  combo_complete (next_state s type code value) = false ->
  key_is_down (next_state s type code value) = 0.
Proof.
  intros Hbefore Hafter.
  destruct (combo_change_accepted s type code value) as [Hacc Hcc];
    [congruence|].
  rewrite Hafter in Hcc.
  unfold next_state, settle. rewrite Hacc, Hcc.
  destruct (key_is_down (account code value s) =? 0) eqn:Hk; cbn [negb].
  - apply Z.eqb_eq. exact Hk.
  - reflexivity.
Qed.

(** X10: a combination that is formed and broken again before the
    worker has taken the delayed work, whether or not the delay has
    expired in between, leaves no trace: starting with nothing in flight,
    afterwards nothing is in flight, no work has run, no callback was
    heard, the phase flag is 0 and the held wake-up source is released. *)
Theorem combo_broken_before_work_starts
    (sys : system) (t1 c1 v1 t2 c2 v2 : Z) (expired : bool) :
  in_flight (krn sys) = [] ->
  combo_complete (drv sys) = false ->
  combo_complete (drv (step sys (input_event t1 c1 v1))) = true ->
  combo_complete
    (drv (step (if expired
                then step (step sys (input_event t1 c1 v1)) timer_expires
                else step sys (input_event t1 c1 v1))
               (input_event t2 c2 v2))) = false ->
  let final :=
    step (if expired
          then step (step sys (input_event t1 c1 v1)) timer_expires
          else step sys (input_event t1 c1 v1))
         (input_event t2 c2 v2) in
  in_flight (krn final) = [] /\
  ran final = ran sys /\
  callbacks (calls final) = callbacks (calls sys) /\
  key_is_down (drv final) = 0 /\
  held_awake (krn final) = false.
Proof.
  intros Hquiet Hcc0 Hcc1 Hcc3 final.
  destruct (in_flight_nil _ Hquiet) as (Hcur & Hwl & Htp).
  destruct (step_event_outside sys t1 c1 v1) as (Hd1 & Hr1 & Hc1).
  rewrite Hd1 in Hcc1.
  pose proof (krn_step_forms sys t1 c1 v1 Hcc0 Hcc1 Htp) as Hk1.
  rewrite Hwl, Hcur in Hk1. specialize (Hk1 eq_refl).
  pose proof (forms_phase _ _ _ _ Hcc0 Hcc1) as Hkid1.
  remember (step sys (input_event t1 c1 v1)) as sys1 eqn:Hsys1.
  destruct sys1 as [s1 k1 cl1 r1]. cbn [drv krn calls ran] in *.
  subst s1 r1.
  set (sys2 := if expired
               then step (mk_system (next_state (drv sys) t1 c1 v1) k1 cl1
                                    (ran sys)) timer_expires
               else mk_system (next_state (drv sys) t1 c1 v1) k1 cl1
                              (ran sys)) in *.
  assert (H2 : drv sys2 = next_state (drv sys) t1 c1 v1 /\
               ran sys2 = ran sys /\ calls sys2 = cl1 /\
               up_awake (krn sys2) = up_awake (krn sys) /\
               current (krn sys2) = None /\
               ((timer_pending (krn sys2) = true /\ worklist (krn sys2) = [])
                \/ (timer_pending (krn sys2) = false /\
                    worklist (krn sys2) = [key_down_work]))).
  { unfold sys2. rewrite Hk1.
    destruct expired, (delay (drv sys) =? 0); cbn;
      repeat split; auto. }
  destruct H2 as (Hd2 & Hr2 & Hc2 & Hu2 & Hcur2 & Hpend2).
  destruct (step_event_outside sys2 t2 c2 v2) as (Hd3 & Hr3 & Hc3).
  fold final in Hd3, Hr3, Hc3, Hcc3.
  rewrite Hd3, Hd2 in Hcc3.
  assert (Hk3 : krn final =
                mk_kernel false false (up_awake (krn sys)) false [] None).
  { unfold final. rewrite krn_step_breaks.
    - rewrite Hu2, Hcur2.
      destruct Hpend2 as [[-> ->]|[-> ->]]; reflexivity.
    - rewrite Hd2, Hkid1. discriminate.
    - rewrite Hd2. exact Hcc1.
    - rewrite Hd2. exact Hcc3. }
  rewrite Hk3, Hr3, Hr2, Hc3, Hc2, Hc1, Hd3, Hd2.
  repeat split. apply breaks_phase; assumption.
Qed.


(** X11: a combination that is formed with nothing in flight and held
    until the delay has expired and the worker has run the delayed work
    lets the client hear key_down_fn (when it is set) once; when it is
    then broken and the worker has run the key-up work, the client hears
    key_up_fn (when it is set) once, after it; in the end nothing is in
    flight and both wake-up sources are released. *)
Theorem combo_held_then_released
    (sys : system) (t1 c1 v1 t2 c2 v2 : Z) :
  in_flight (krn sys) = [] ->
  combo_complete (drv sys) = false ->
  combo_complete (drv (step sys (input_event t1 c1 v1))) = true ->
  combo_complete
    (drv (step (run sys [input_event t1 c1 v1; timer_expires; worker_takes;
                         worker_runs])
               (input_event t2 c2 v2))) = false ->
  let held := run sys [input_event t1 c1 v1; timer_expires; worker_takes;
                       worker_runs] in
  let final := run held [input_event t2 c2 v2; worker_takes; worker_runs] in
  callbacks (calls held) =
    callbacks (calls sys) ++
    heard (key_down_fn (drv sys)) (key_up_fn (drv sys)) key_down_work /\
  held_awake (krn held) = true /\
  callbacks (calls final) =
    callbacks (calls held) ++
    heard (key_down_fn (drv sys)) (key_up_fn (drv sys)) key_up_work /\
  ran final = ran sys ++ [key_down_work; key_up_work] /\
  in_flight (krn final) = [] /\
  key_is_down (drv final) = 0 /\
  held_awake (krn final) = false /\
  up_awake (krn final) = false.
Proof.
  intros Hquiet Hcc0 Hcc1 Hcc3 held final.
  fold held in Hcc3.
  destruct (in_flight_nil _ Hquiet) as (Hcur & Hwl & Htp).
  destruct (step_event_outside sys t1 c1 v1) as (Hd1 & Hr1 & Hc1).
  rewrite Hd1 in Hcc1.
  pose proof (krn_step_forms sys t1 c1 v1 Hcc0 Hcc1 Htp) as Hk1.
  rewrite Hwl, Hcur in Hk1. specialize (Hk1 eq_refl).
  pose proof (forms_phase _ _ _ _ Hcc0 Hcc1) as Hkid1.
  destruct (next_state_frame (drv sys) t1 c1 v1)
    as (_ & _ & _ & _ & Hfd & Hfu).
  assert (Hheld : held =
            mk_system (next_state (drv sys) t1 c1 v1)
              (mk_kernel false true (up_awake (krn sys)) false [] None)
              (calls (step sys (input_event t1 c1 v1)) ++
               (if key_down_fn (drv sys) then [Did (invoke on_key_down)]
                else []))
              (ran sys ++ [key_down_work])).
  { unfold held. cbn [run fold_left].
    remember (step sys (input_event t1 c1 v1)) as sys1 eqn:Hsys1.
    destruct sys1 as [s1 k1 cl1 r1]. cbn [drv krn calls ran] in *.
    subst s1 r1 k1.
    destruct (delay (drv sys) =? 0);
      cbn -[next_state]; unfold do_key_down, call, ret; rewrite Hfd;
      destruct (key_down_fn (drv sys)); reflexivity. }
  rewrite Hheld in Hcc3 |- *. cbn [drv krn calls ran held_awake].
  set (held' := mk_system (next_state (drv sys) t1 c1 v1)
              (mk_kernel false true (up_awake (krn sys)) false [] None)
              (calls (step sys (input_event t1 c1 v1)) ++
               (if key_down_fn (drv sys) then [Did (invoke on_key_down)]
                else []))
              (ran sys ++ [key_down_work])) in *.
  destruct (step_event_outside held' t2 c2 v2) as (Hd3 & Hr3 & Hc3).
  rewrite Hd3 in Hcc3. cbn [drv held'] in Hcc3, Hd3.
  pose proof (krn_step_breaks held' t2 c2 v2) as Hk3.
  cbn [drv krn held' timer_pending worklist up_awake current orb queued
       existsb app] in Hk3.
  rewrite Hkid1 in Hk3. specialize (Hk3 ltac:(discriminate) Hcc1 Hcc3).
  pose proof (breaks_phase _ _ _ _ Hcc1 Hcc3) as Hkid3.
  destruct (next_state_frame (next_state (drv sys) t1 c1 v1) t2 c2 v2)
    as (_ & _ & _ & _ & Hfd3 & Hfu3).
  assert (Hfinal : final =
            mk_system (next_state (next_state (drv sys) t1 c1 v1) t2 c2 v2)
              (mk_kernel false false false false [] None)
              (calls (step held' (input_event t2 c2 v2)) ++
               (if key_up_fn (drv sys) then [Did (invoke on_key_up)] else [])
               ++ [Did (__pm_relax combo_up_wake_source)])
              (ran sys ++ [key_down_work; key_up_work])).
  { unfold final. rewrite Hheld. fold held'. cbn [run fold_left].
    remember (step held' (input_event t2 c2 v2)) as sys3 eqn:Hsys3.
    destruct sys3 as [s3 k3 cl3 r3]. cbn [drv krn calls ran held'] in *.
    subst s3 r3 k3.
    cbn -[next_state]. unfold do_key_up, bind, call, ret.
    rewrite Hfu3, Hfu, <- app_assoc.
    destruct (key_up_fn (drv sys)); reflexivity. }
  rewrite Hfinal. cbn [drv krn calls ran held_awake up_awake].
  rewrite !callbacks_app, Hc3. cbn [calls held'].
  rewrite !callbacks_app, !Hc1.
  split; [destruct (key_down_fn (drv sys)); reflexivity|].
  split; [reflexivity|].
  split; [destruct (key_down_fn (drv sys)), (key_up_fn (drv sys));
          cbn; rewrite ?app_nil_r; reflexivity|].
  repeat split. exact Hkid3.
Qed.

End Cycle.

(** * The life of a handle *)

Section HandleLife.

Context {hdr : Headers}.

(** X12: with non-zero error numbers, [keycombo_connect] returns 0
    exactly when the device shares a code below KEY_MAX with the tracked
    set, the handle was allocated, and both the registration and the
    opening of the device returned 0. *)
Theorem keycombo_connect_succeeds_iff
    (state : keycombo_state) (dev_keybit : Z) (env : connect_env) :
  0 <= KEY_MAX -> ENODEV <> 0 -> ENOMEM <> 0 ->
  (fst (keycombo_connect state dev_keybit env) = 0 <->
   (exists c, 0 <= c < KEY_MAX /\ test_bit c (keybit state) = true /\
              test_bit c dev_keybit = true) /\
   handle_allocated env = true /\
   register_handle_ret env = 0 /\
   open_device_ret env = 0).
Proof.
  intros Hmax Hnodev Hnomem.
  destruct (connect_scan_spec (Z.to_nat KEY_MAX) 0 (keybit state) dev_keybit)
    as (Hrange & Hhit & Hmiss).
  rewrite Z2Nat.id in * by assumption. cbn [Z.add] in *.
  unfold keycombo_connect.
  set (i := connect_scan (Z.to_nat KEY_MAX) 0 (keybit state) dev_keybit) in *.
  destruct (Z.eqb_spec i KEY_MAX) as [Heq|Hne]; cbn [fst].
  - split; [lia|].
    intros [(c & Hc & Hs & Hd) _].
    specialize (Hmiss c ltac:(lia)). rewrite Hs, Hd in Hmiss. discriminate.
  - assert (Hsome : exists c, 0 <= c < KEY_MAX /\
                      test_bit c (keybit state) = true /\
                      test_bit c dev_keybit = true).
    { exists i. specialize (Hhit ltac:(lia)).
      apply andb_prop in Hhit. destruct Hhit.
      repeat split; (lia || assumption). }
    destruct (handle_allocated env); cbn [negb fst].
    2:{ split; [lia|]. intros (_ & Hf & _). discriminate. }
    destruct (Z.eqb_spec (register_handle_ret env) 0) as [Hr|Hr];
      cbn [negb fst].
    2:{ split; [contradiction|]. intros (_ & _ & Hf & _). contradiction. }
    destruct (Z.eqb_spec (open_device_ret env) 0) as [Ho|Ho]; cbn [negb fst].
    + split; [intros _; repeat split; assumption|reflexivity].
    + split; [contradiction|]. intros (_ & _ & _ & Hf). contradiction.
Qed.

(** X13: [keycombo_connect] uses the handle in order and never leaves
    anything behind when it fails: when it returns non-zero nothing is
    held (what was registered is unregistered, what was allocated is
    freed); when it returns 0 the handle is allocated, registered and
    open, and [keycombo_disconnect] then releases all of it, in order. *)
Theorem keycombo_connect_ledger
    (state : keycombo_state) (dev_keybit : Z) (env : connect_env) :
  ENODEV <> 0 -> ENOMEM <> 0 ->
  (fst (keycombo_connect state dev_keybit env) <> 0 ->
   ledger_after (map during_connect (snd (keycombo_connect state dev_keybit env)))
                (Some nothing_held) = Some nothing_held) /\
  (fst (keycombo_connect state dev_keybit env) = 0 ->
   ledger_after (map during_connect (snd (keycombo_connect state dev_keybit env)))
                (Some nothing_held) = Some attached /\
   ledger_after keycombo_disconnect (Some attached) = Some nothing_held).
Proof.
  intros Hnodev Hnomem. unfold keycombo_connect.
  destruct (connect_scan _ _ _ _ =? KEY_MAX); cbn [fst snd map].
  - split; [reflexivity|lia].
  - destruct (handle_allocated env); cbn [negb fst snd map];
      [|split; [reflexivity|lia]].
    destruct (Z.eqb_spec (register_handle_ret env) 0) as [Hr|Hr];
      cbn [negb fst snd map].
    + destruct (Z.eqb_spec (open_device_ret env) 0) as [Ho|Ho];
        cbn [negb fst snd map].
      * split; [contradiction|]. intros _. split; reflexivity.
      * split; [|contradiction]. intros _.
        unfold ledger_after. cbn.
        replace (open_device_ret env =? 0) with false
          by (symmetry; apply Z.eqb_neq; exact Ho).
        reflexivity.
    + split; [|contradiction]. intros _.
      unfold ledger_after. cbn.
      replace (register_handle_ret env =? 0) with false
        by (symmetry; apply Z.eqb_neq; exact Hr).
      reflexivity.
Qed.

End HandleLife.

(** * Construction: the arrays and the device tree *)

Section ProbeMore.

Context {hdr : Headers}.

Lemma scan_keys_down_frame (arr : list Z) (s s' : keycombo_state) :
  scan_keys_down arr s = Some s' ->
  key s' = key s /\ key_down s' = key_down s /\ key_up s' = key_up s /\
  key_is_down s' = key_is_down s.
Proof.
  revert s. induction arr as [|k arr IH]; intros s; [discriminate|].
  cbn [scan_keys_down].
  destruct (k =? 0); [intros [= <-]; repeat split|].
  destruct (k >=? KEY_MAX); [apply IH|].
  destruct (k <? 0); [discriminate|].
  intros Hscan. apply IH in Hscan. exact Hscan.
Qed.

Lemma scan_keys_up_frame (arr : list Z) (s s' : keycombo_state) :
  scan_keys_up arr s = Some s' ->
  key s' = key s /\ key_down s' = key_down s /\ key_up s' = key_up s /\
  key_is_down s' = key_is_down s.
Proof.
  revert s. induction arr as [|k arr IH]; intros s; [discriminate|].
  cbn [scan_keys_up].
  destruct (k =? 0); [intros [= <-]; repeat split|].
  destruct (k >=? KEY_MAX); [apply IH|].
  destruct (k <? 0); [discriminate|].
  intros Hscan. apply IH in Hscan. exact Hscan.
Qed.

(** Whatever the arrays, a state [keycombo_probe] returns is all-zero and
    carries the function pointers of the platform data. *)
Lemma probed_initial (pdata : keycombo_platform_data) (env : probe_env)
    (s0 : keycombo_state) :
  keycombo_probe (Some pdata) env = Probed s0 ->
  initial s0 /\
  key_down_fn s0 = pdata_key_down_fn pdata /\
  key_up_fn s0 = pdata_key_up_fn pdata.
Proof.
  unfold keycombo_probe.
  destruct (negb (state_allocated env)); [discriminate|].
  destruct (scan_keys_down (keys_down pdata) zeroed_state) as [s1|] eqn:Hs1;
    [|discriminate].
  apply scan_keys_down_frame in Hs1. cbn in Hs1.
  destruct Hs1 as (Hk & Hd & Hu & Hkid).
  assert (Hs2 : forall s2,
            match keys_up pdata with
            | Some keyp => scan_keys_up keyp s1
            | None => Some s1
            end = Some s2 ->
            key s2 = 0 /\ key_down s2 = 0 /\ key_up s2 = 0 /\
            key_is_down s2 = 0).
  { intros s2. destruct (keys_up pdata) as [keyp|].
    - intros Hscan. apply scan_keys_up_frame in Hscan.
      destruct Hscan as (-> & -> & -> & ->). repeat split; assumption.
    - intros [= <-]. repeat split; assumption. }
  destruct (match keys_up pdata with
            | Some keyp => scan_keys_up keyp s1
            | None => Some s1
            end) as [s2|]; [|discriminate].
  specialize (Hs2 s2 eq_refl).
  destruct (negb (workqueue_allocated env)); [discriminate|].
  destruct (negb (register_handler_ret env =? 0)); [discriminate|].
  intros [= <-]. cbn. repeat split; apply Hs2.
Qed.

Lemma well_terminated_cons (k : Z) (arr : list Z) :
  k <> 0 ->
  well_terminated (k :: arr) <->
  (KEY_MAX <= k \/ 0 <= k) /\ well_terminated arr.
Proof.
  intros Hk. unfold well_terminated. split.
  - intros (keys & rest & Harr & Hall).
    destruct keys as [|k' keys]; cbn in Harr; injection Harr as Hhd Htl;
      [congruence|]. subst k'.
    inversion Hall as [|? ? [_ Hok] Hall']; subst.
    split; [exact Hok|]. exists keys, rest. split; [reflexivity|exact Hall'].
  - intros (Hok & keys & rest & -> & Hall).
    exists (k :: keys), rest. split; [reflexivity|].
    constructor; [split; assumption|exact Hall].
Qed.

Lemma well_terminated_zero (arr : list Z) : well_terminated (0 :: arr).
Proof. exists [], arr. split; [reflexivity|constructor]. Qed.

Lemma well_terminated_nil : ~ well_terminated [].
Proof.
  intros (keys & rest & Harr & _). destruct keys; discriminate.
Qed.

Lemma scan_keys_down_some_iff (arr : list Z) (s : keycombo_state) :
  (exists s', scan_keys_down arr s = Some s') <-> well_terminated arr.
Proof.
  revert s. induction arr as [|k arr IH]; intros s.
  - split; [intros [s' Hs']; discriminate|].
    intros Hwt. contradiction (well_terminated_nil Hwt).
  - cbn [scan_keys_down].
    destruct (Z.eqb_spec k 0) as [->|Hk].
    { split; [intros _; apply well_terminated_zero|eauto]. }
    rewrite (well_terminated_cons k arr Hk).
    destruct (Z.geb_spec k KEY_MAX) as [Hge|Hlt].
    { rewrite IH. split; [intros Hwt; split; [left; lia|exact Hwt]|tauto]. }
    destruct (Z.ltb_spec k 0) as [Hneg|Hpos].
    { split; [intros [s' Hs']; discriminate|]. intros [[?|?] _]; lia. }
    rewrite IH. split; [intros Hwt; split; [right; lia|exact Hwt]|tauto].
Qed.

Lemma scan_keys_up_some_iff (arr : list Z) (s : keycombo_state) :
  (exists s', scan_keys_up arr s = Some s') <-> well_terminated arr.
Proof.
  revert s. induction arr as [|k arr IH]; intros s.
  - split; [intros [s' Hs']; discriminate|].
    intros Hwt. contradiction (well_terminated_nil Hwt).
  - cbn [scan_keys_up].
    destruct (Z.eqb_spec k 0) as [->|Hk].
    { split; [intros _; apply well_terminated_zero|eauto]. }
    rewrite (well_terminated_cons k arr Hk).
    destruct (Z.geb_spec k KEY_MAX) as [Hge|Hlt].
    { rewrite IH. split; [intros Hwt; split; [left; lia|exact Hwt]|tauto]. }
    destruct (Z.ltb_spec k 0) as [Hneg|Hpos].
    { split; [intros [s' Hs']; discriminate|]. intros [[?|?] _]; lia. }
    rewrite IH. split; [intros Hwt; split; [right; lia|exact Hwt]|tauto].
Qed.

(** X14: [keycombo_probe] leaves its arrays exactly when, the state
    being allocated, one of the key arrays it walks is not well
    terminated: it has no 0 cell, or a negative code below KEY_MAX comes
    before the first 0.  Codes of KEY_MAX or more never do harm. *)
Theorem keycombo_probe_fault_iff
    (pdata : keycombo_platform_data) (env : probe_env) :
  keycombo_probe (Some pdata) env = Fault <->
  state_allocated env = true /\
  (~ well_terminated (keys_down pdata) \/
   exists arr, keys_up pdata = Some arr /\ ~ well_terminated arr).
Proof.
  unfold keycombo_probe.
  destruct (state_allocated env); cbn [negb].
  2:{ split; [discriminate|]. intros [Hf _]. discriminate. }
  pose proof (scan_keys_down_some_iff (keys_down pdata) zeroed_state) as Hd.
  destruct (scan_keys_down (keys_down pdata) zeroed_state) as [s1|].
  2:{ split; [|reflexivity]. intros _. split; [reflexivity|]. left.
      intros Hwt. apply Hd in Hwt. destruct Hwt as [s' Hs']. discriminate. }
  assert (Hwd : well_terminated (keys_down pdata)) by (apply Hd; eauto).
  destruct (keys_up pdata) as [arr|].
  - pose proof (scan_keys_up_some_iff arr s1) as Hu.
    destruct (scan_keys_up arr s1) as [s2|].
    + assert (Hwu : well_terminated arr) by (apply Hu; eauto).
      split.
      * destruct (negb (workqueue_allocated env)); [discriminate|].
        destruct (negb (register_handler_ret env =? 0)); discriminate.
      * intros [_ [Hn|(arr' & [= <-] & Hn)]]; contradiction.
    + split; [|reflexivity]. intros _. split; [reflexivity|]. right.
      exists arr. split; [reflexivity|].
      intros Hwt. apply Hu in Hwt. destruct Hwt as [s' Hs']. discriminate.
  - split.
    + destruct (negb (workqueue_allocated env)); [discriminate|].
      destruct (negb (register_handler_ret env =? 0)); discriminate.
    + intros [_ [Hn|(arr' & Hf & _)]]; [contradiction|discriminate].
Qed.

End ProbeMore.

Section ParseDtFacts.

Context {hdr : Headers}.

Variable EINVAL : Z.

Lemma keycombo_parse_dt_fns (vzw_key_flag : Z) (dt : device_node)
    (pdata : keycombo_platform_data) (env : parse_env) :
  pdata_key_down_fn
    (snd (fst (keycombo_parse_dt EINVAL vzw_key_flag dt pdata env))) =
    pdata_key_down_fn pdata /\
  pdata_key_up_fn
    (snd (fst (keycombo_parse_dt EINVAL vzw_key_flag dt pdata env))) =
    pdata_key_up_fn pdata.
Proof.
  unfold keycombo_parse_dt.
  destruct (parser_st vzw_key_flag) as [[st0 st1] st2].
  destruct (of_property_read_u32 dt st0);
    (destruct (of_find_property dt st1); [|split; reflexivity]);
    (destruct (negb (keys_down_allocated env)); [split; reflexivity|]);
    (destruct (of_property_read_u32_array dt st1 _); [|split; reflexivity]);
    (destruct (of_find_property dt st2); [|split; reflexivity]);
    (destruct (negb (keys_up_allocated env)); [split; reflexivity|]);
    (destruct (of_property_read_u32_array dt st2 _); split; reflexivity).
Qed.

(** X15: [keycombo_parse_dt] returns 0, -EINVAL or -ENOMEM.  Whenever it
    fails, every key array it allocated has been freed again.  When it
    returns 0 both arrays stay allocated and the platform data holds the
    cells read for the two key properties, named by [parser_st], and the
    delay read (the delay it had when that property is missing, which is
    no error). *)
Theorem keycombo_parse_dt_result (vzw_key_flag : Z) (dt : device_node)
    (pdata : keycombo_platform_data) (env : parse_env) :
  0 < EINVAL -> 0 < ENOMEM ->
  (fst (fst (keycombo_parse_dt EINVAL vzw_key_flag dt pdata env)) = 0 \/
   fst (fst (keycombo_parse_dt EINVAL vzw_key_flag dt pdata env)) = - EINVAL \/
   fst (fst (keycombo_parse_dt EINVAL vzw_key_flag dt pdata env)) = - ENOMEM)
  /\
  (fst (fst (keycombo_parse_dt EINVAL vzw_key_flag dt pdata env)) <> 0 ->
   outstanding (snd (keycombo_parse_dt EINVAL vzw_key_flag dt pdata env)) []
     = [])
  /\
  (fst (fst (keycombo_parse_dt EINVAL vzw_key_flag dt pdata env)) = 0 ->
   outstanding (snd (keycombo_parse_dt EINVAL vzw_key_flag dt pdata env)) []
     = [keys_up_array; keys_down_array] /\
   exists len_down len_up cells_up,
     of_find_property dt (snd (fst (parser_st vzw_key_flag))) = Some len_down /\
     of_property_read_u32_array dt (snd (fst (parser_st vzw_key_flag)))
       (len_down / 4) =
       Some (keys_down
               (snd (fst (keycombo_parse_dt EINVAL vzw_key_flag dt pdata env))))
     /\
     of_find_property dt (snd (parser_st vzw_key_flag)) = Some len_up /\
     of_property_read_u32_array dt (snd (parser_st vzw_key_flag))
       (len_up / 4) = Some cells_up /\
     keys_up (snd (fst (keycombo_parse_dt EINVAL vzw_key_flag dt pdata env)))
       = Some cells_up /\
     key_down_delay
       (snd (fst (keycombo_parse_dt EINVAL vzw_key_flag dt pdata env))) =
       match of_property_read_u32 dt (fst (fst (parser_st vzw_key_flag))) with
       | Some v => v
       | None => key_down_delay pdata
       end).
Proof.
  intros Hinval Hnomem. unfold keycombo_parse_dt.
  destruct (parser_st vzw_key_flag) as [[st0 st1] st2]. cbn [fst snd].
  destruct (of_find_property dt st1) as [len_down|] eqn:Hfd; cbn [fst snd].
  2:{ split; [right; left; reflexivity|]. split; [reflexivity|lia]. }
  destruct (keys_down_allocated env); cbn [negb fst snd].
  2:{ split; [right; right; reflexivity|]. split; [reflexivity|lia]. }
  destruct (of_property_read_u32_array dt st1 (len_down / 4))
    as [cells_down|] eqn:Hdown; cbn [fst snd].
  2:{ split; [right; left; reflexivity|]. split; [reflexivity|lia]. }
  destruct (of_find_property dt st2) as [len_up|] eqn:Hfu; cbn [fst snd].
  2:{ split; [right; left; reflexivity|]. split; [reflexivity|lia]. }
  destruct (keys_up_allocated env); cbn [negb fst snd].
  2:{ split; [right; right; reflexivity|]. split; [reflexivity|lia]. }
  destruct (of_property_read_u32_array dt st2 (len_up / 4))
    as [cells_up|] eqn:Hup; cbn [fst snd].
  2:{ split; [right; left; reflexivity|]. split; [reflexivity|lia]. }
  split; [left; reflexivity|]. split; [contradiction|].
  intros _. split; [reflexivity|].
  exists len_down, len_up, cells_up.
  split; [reflexivity|]. split; [exact Hdown|].
  split; [reflexivity|]. split; [exact Hup|]. split; [reflexivity|].
  destruct (of_property_read_u32 dt st0); reflexivity.
Qed.

Lemma keycombo_parse_dt_ret (vzw_key_flag : Z) (dt : device_node)
    (pdata : keycombo_platform_data) (env : parse_env) :
  fst (fst (keycombo_parse_dt EINVAL vzw_key_flag dt pdata env)) = 0 \/
  fst (fst (keycombo_parse_dt EINVAL vzw_key_flag dt pdata env)) = - EINVAL \/
  fst (fst (keycombo_parse_dt EINVAL vzw_key_flag dt pdata env)) = - ENOMEM.
Proof.
  unfold keycombo_parse_dt.
  destruct (parser_st vzw_key_flag) as [[st0 st1] st2].
  destruct (of_find_property dt st1); [|right; left; reflexivity].
  destruct (negb (keys_down_allocated env)); [right; right; reflexivity|].
  destruct (of_property_read_u32_array dt st1 _); [|right; left; reflexivity].
  destruct (of_find_property dt st2); [|right; left; reflexivity].
  destruct (negb (keys_up_allocated env)); [right; right; reflexivity|].
  destruct (of_property_read_u32_array dt st2 _);
    [left; reflexivity|right; left; reflexivity].
Qed.

(** X16: on the device-tree path every failure to obtain the platform
    data makes [keycombo_probe] return -ENOMEM: a failed allocation of the
    platform data, and any failure of [keycombo_parse_dt], whose own
    -EINVAL is not passed on. *)
Theorem keycombo_probe_pdev_parse_failure
    (vzw_key_flag : Z) (pdev : platform_device) (dt : device_node)
    (pdata_allocated : bool) (penv : parse_env) (env : probe_env) :
  0 < EINVAL -> 0 < ENOMEM ->
  of_node pdev = Some dt ->
  pdata_allocated = false \/
  fst (fst (keycombo_parse_dt EINVAL vzw_key_flag dt kzalloced_pdata penv))
    <> 0 ->
  keycombo_probe_pdev EINVAL vzw_key_flag pdev pdata_allocated penv env =
    Failed (- ENOMEM).
Proof.
  intros Hinval Hnomem Hnode Hfail.
  unfold keycombo_probe_pdev, probe_pdata. rewrite Hnode.
  destruct pdata_allocated; cbn [negb]; [|reflexivity].
  destruct Hfail as [|Hfail]; [discriminate|].
  destruct (keycombo_parse_dt_ret vzw_key_flag dt kzalloced_pdata penv)
    as [Hz|[He|He]]; [contradiction| |];
    destruct (keycombo_parse_dt EINVAL vzw_key_flag dt kzalloced_pdata penv)
      as [[ret pdata] calls]; cbn [fst snd] in *; subst ret;
    (replace (_ <? 0) with true by (symmetry; apply Z.ltb_lt; lia));
    reflexivity.
Qed.

Lemma heard_none (works : list work) :
  flat_map (heard false false) works = [].
Proof. induction works as [|[] works IH]; [reflexivity| |]; exact IH. Qed.

(** X17: an instance constructed from the device tree has neither
    function pointer set, since the parser fills in only the delay and the
    two key arrays of the zeroed platform data: whatever events, timer
    expiries and worker steps follow, no callback is ever invoked. *)
Theorem device_tree_instance_hears_nothing
    (vzw_key_flag : Z) (pdev : platform_device) (dt : device_node)
    (pdata_allocated : bool) (penv : parse_env) (env : probe_env)
    (s0 : keycombo_state) (l : list action) :
  of_node pdev = Some dt ->
  keycombo_probe_pdev EINVAL vzw_key_flag pdev pdata_allocated penv env =
    Probed s0 ->
  key_down_fn s0 = false /\ key_up_fn s0 = false /\
  callbacks (calls (run (fresh s0) l)) = [].
Proof.
  intros Hnode Hprobe.
  unfold keycombo_probe_pdev, probe_pdata in Hprobe. rewrite Hnode in Hprobe.
  destruct pdata_allocated; cbn [negb] in Hprobe; [|discriminate].
  destruct (keycombo_parse_dt_fns vzw_key_flag dt kzalloced_pdata penv)
    as [Hfd Hfu].
  destruct (keycombo_parse_dt EINVAL vzw_key_flag dt kzalloced_pdata penv)
    as [[ret pdata] pcalls]. cbn [fst snd] in *.
  destruct (ret <? 0); [discriminate|].
  destruct (probed_initial (read_as_int pdata) env s0 Hprobe)
    as (Hinit & Hd & Hu).
  cbn [read_as_int pdata_key_down_fn pdata_key_up_fn] in Hd, Hu.
  rewrite Hfd in Hd. rewrite Hfu in Hu. cbn in Hd, Hu.
  split; [exact Hd|]. split; [exact Hu|].
  destruct (run_ok _ _ l _ (fresh_ok s0 Hinit)) as (_ & _ & _ & _ & _ & Hc).
  rewrite Hc, Hd, Hu. apply heard_none.
Qed.

Lemma int_of_u32_zero (c : Z) : int_of_u32 c = 0 -> c = 0.
Proof.
  unfold int_of_u32.
  destruct (Z.leb_spec (2 ^ 31) c), (Z.ltb_spec c (2 ^ 32)); cbn [andb]; lia.
Qed.

(** X18: the parser hands on exactly the cells of the property, so a
    down-key property none of whose cells is 0 makes the key loop of
    [keycombo_probe] run off the end of the array. *)
Theorem device_tree_keys_need_terminator
    (vzw_key_flag : Z) (pdev : platform_device) (dt : device_node)
    (penv : parse_env) (env : probe_env)
    (pdata : keycombo_platform_data) (calls : list parse_call) :
  of_node pdev = Some dt ->
  keycombo_parse_dt EINVAL vzw_key_flag dt kzalloced_pdata penv =
    (0, pdata, calls) ->
  Forall (fun k => k <> 0) (keys_down pdata) ->
  state_allocated env = true ->
  keycombo_probe_pdev EINVAL vzw_key_flag pdev true penv env = Fault.
Proof.
  intros Hnode Hparse Hcells Halloc.
  unfold keycombo_probe_pdev, probe_pdata. rewrite Hnode, Hparse.
  cbn [negb Z.ltb Z.compare].
  unfold keycombo_probe. rewrite Halloc. cbn [negb read_as_int keys_down].
  pose proof (scan_keys_down_some_iff (map int_of_u32 (keys_down pdata))
                zeroed_state) as Hd.
  destruct (scan_keys_down (map int_of_u32 (keys_down pdata)) zeroed_state)
    as [s1|]; [|reflexivity].
  assert (Hwt : well_terminated (map int_of_u32 (keys_down pdata)))
    by (apply Hd; eauto).
  destruct Hwt as (keys & rest & Harr & _).
  assert (Hzero : In 0 (map int_of_u32 (keys_down pdata))).
  { rewrite Harr. apply in_or_app. right. left. reflexivity. }
  apply in_map_iff in Hzero. destruct Hzero as (c & Hc & Hin).
  rewrite Forall_forall in Hcells.
  contradiction (Hcells c Hin). apply int_of_u32_zero. exact Hc.
Qed.

End ParseDtFacts.

(** * The further properties on the sample instances *)


Lemma keycombo_event_press_release_sample :
  accepted (hdr := msm8996_headers) sample_state 1 116 1 = true /\
  (0 =? 0) = negb (1 =? 0) /\
  in_int (key_down sample_state) /\ in_int (key_up sample_state) /\
  key (result_state
         (keycombo_event (hdr := msm8996_headers)
            (result_state
               (keycombo_event (hdr := msm8996_headers) sample_state 1 116 1
                               idle_kernel))
            1 116 0 idle_kernel)) = key sample_state.
Proof.
  assert (H1 : accepted (hdr := msm8996_headers) sample_state 1 116 1 = true)
    by (vm_compute; reflexivity).
  assert (H2 : (0 =? 0) = negb (1 =? 0)) by reflexivity.
  assert (H3 : in_int (key_down sample_state))
    by (vm_compute; split; discriminate).
  assert (H4 : in_int (key_up sample_state))
    by (vm_compute; split; discriminate).
  repeat (split; [assumption|]).
  exact (proj1 (keycombo_event_press_release (hdr := msm8996_headers)
                  sample_state 1 116 1 0 idle_kernel idle_kernel
                  H1 H2 H3 H4)).
Defined.

Lemma phase_exactly_when_combo_complete_sample :
  initial sample_state /\
  key_down_target sample_state <> 0 /\
  (key_is_down
     (result_state
        (keycombo_event (hdr := msm8996_headers) sample_state 1 116 1
                        idle_kernel)) = 0 \/
   key_is_down
     (result_state
        (keycombo_event (hdr := msm8996_headers) sample_state 1 116 1
                        idle_kernel)) = 1).
Proof.
  assert (H1 : initial sample_state) by (repeat split).
  assert (H2 : key_down_target sample_state <> 0) by (cbn; lia).
  split; [exact H1|]. split; [exact H2|].
  exact (proj2 (phase_exactly_when_combo_complete (hdr := msm8996_headers)
                  sample_state _ H1 H2
                  (reachable_event sample_state sample_state 1 116 1
                     idle_kernel (reachable_start sample_state)))).
Defined.

Lemma sample_lists_terminated :
  terminated (keys_down sample_pdata) [116; 114] /\
  terminated [115; 0] [115] /\
  terminated (keys_down overlap_pdata) [116; 114] /\
  terminated [116; 0] [116].
Proof.
  repeat split; try (exists []; reflexivity); repeat constructor.
Qed.

Lemma probed_instance_detects_combo_sample :
  KEY_MAX (Headers := msm8996_headers) <= INT_MAX /\
  NoDup (kept (hdr := msm8996_headers) [116; 114]) /\
  kept (hdr := msm8996_headers) [116; 114] <> [] /\
  (forall c, In c (kept (hdr := msm8996_headers) [116; 114]) ->
             ~ In c (kept (hdr := msm8996_headers) [115])) /\
  keycombo_probe (hdr := msm8996_headers) (Some sample_pdata) sample_env =
    Probed sample_state /\
  key_is_down
    (result_state
       (keycombo_event (hdr := msm8996_headers)
          (result_state
             (keycombo_event (hdr := msm8996_headers) sample_state 1 116 1
                             idle_kernel))
          1 114 1 idle_kernel)) <> 0 /\
  (forall c, In c (kept (hdr := msm8996_headers) [116; 114]) ->
     test_bit c
       (key (result_state
               (keycombo_event (hdr := msm8996_headers)
                  (result_state
                     (keycombo_event (hdr := msm8996_headers) sample_state
                                     1 116 1 idle_kernel))
                  1 114 1 idle_kernel))) = true) /\
  (forall c, In c (kept (hdr := msm8996_headers) [115]) ->
     test_bit c
       (key (result_state
               (keycombo_event (hdr := msm8996_headers)
                  (result_state
                     (keycombo_event (hdr := msm8996_headers) sample_state
                                     1 116 1 idle_kernel))
                  1 114 1 idle_kernel))) = false).
Proof.
  assert (H1 : KEY_MAX (Headers := msm8996_headers) <= INT_MAX)
    by (vm_compute; discriminate).
  assert (H2 : NoDup (kept (hdr := msm8996_headers) [116; 114])).
  { cbn. constructor; [intros [Heq|[]]; discriminate|].
    constructor; [intros []|constructor]. }
  assert (H3 : kept (hdr := msm8996_headers) [116; 114] <> [])
    by (cbn; discriminate).
  assert (H4 : forall c, In c (kept (hdr := msm8996_headers) [116; 114]) ->
                         ~ In c (kept (hdr := msm8996_headers) [115])).
  { cbn. intros c [<-|[<-|[]]] [Heq|[]]; discriminate. }
  assert (H5 : keycombo_probe (hdr := msm8996_headers) (Some sample_pdata)
                 sample_env = Probed sample_state)
    by (vm_compute; reflexivity).
  assert (H6 : key_is_down
                 (result_state
                    (keycombo_event (hdr := msm8996_headers)
                       (result_state
                          (keycombo_event (hdr := msm8996_headers)
                             sample_state 1 116 1 idle_kernel))
                       1 114 1 idle_kernel)) <> 0)
    by (vm_compute; discriminate).
  repeat (split; [assumption|]).
  exact (proj1
           (probed_instance_detects_combo (hdr := msm8996_headers)
              (K := kernel)
              sample_pdata sample_env [116; 114] [115] sample_state _
              H1 (proj1 sample_lists_terminated)
              (proj1 (proj2 sample_lists_terminated))
              H2 H3 H4 H5
              (reachable_event sample_state _ 1 114 1 idle_kernel
                 (reachable_event sample_state sample_state 1 116 1
                    idle_kernel (reachable_start sample_state))))
           H6).
Defined.

Lemma probed_instance_never_completes_sample :
  KEY_MAX (Headers := msm8996_headers) <= INT_MAX /\
  Z.of_nat (length (kept (hdr := msm8996_headers) [116; 114])) <= INT_MAX /\
  (~ NoDup (kept (hdr := msm8996_headers) [116; 114]) \/
   exists c, In c (kept (hdr := msm8996_headers) [116; 114]) /\
             In c (kept (hdr := msm8996_headers) [116])) /\
  keycombo_probe (hdr := msm8996_headers) (Some overlap_pdata) sample_env =
    Probed (mk_state (2 ^ 116 + 2 ^ 114) (2 ^ 116) 0 2 0 0 50 true true 0) /\
  key_is_down
    (result_state
       (keycombo_event (hdr := msm8996_headers)
          (mk_state (2 ^ 116 + 2 ^ 114) (2 ^ 116) 0 2 0 0 50 true true 0)
          1 114 1 idle_kernel)) = 0.
Proof.
  assert (H1 : KEY_MAX (Headers := msm8996_headers) <= INT_MAX)
    by (vm_compute; discriminate).
  assert (H2 : Z.of_nat (length (kept (hdr := msm8996_headers) [116; 114]))
               <= INT_MAX) by (vm_compute; discriminate).
  assert (H3 : ~ NoDup (kept (hdr := msm8996_headers) [116; 114]) \/
               exists c, In c (kept (hdr := msm8996_headers) [116; 114]) /\
                         In c (kept (hdr := msm8996_headers) [116])).
  { right. exists 116. split; cbn; left; reflexivity. }
  assert (H4 : keycombo_probe (hdr := msm8996_headers) (Some overlap_pdata)
                 sample_env =
               Probed (mk_state (2 ^ 116 + 2 ^ 114) (2 ^ 116) 0 2 0 0 50
                                true true 0))
    by (vm_compute; reflexivity).
  repeat (split; [assumption|]).
  exact (probed_instance_never_completes (hdr := msm8996_headers)
           overlap_pdata sample_env [116; 114] [116] _ _
           H1 H2 (proj1 (proj2 (proj2 sample_lists_terminated)))
           (proj2 (proj2 (proj2 sample_lists_terminated)))
           H3 H4
           (reachable_event _ _ 1 114 1 idle_kernel (reachable_start _))).
Defined.

Lemma wake_sources_follow_phase_sample :
  initial sample_state /\
  held_awake
    (krn (run (hdr := msm8996_headers) (fresh sample_state)
            [input_event 1 116 1; input_event 1 114 1])) =
  negb (key_is_down
          (drv (run (hdr := msm8996_headers) (fresh sample_state)
                  [input_event 1 116 1; input_event 1 114 1])) =? 0).
Proof.
  assert (H1 : initial sample_state) by (repeat split).
  split; [exact H1|].
  exact (proj1 (proj2 (wake_sources_follow_phase (hdr := msm8996_headers)
                         sample_state
                         [input_event 1 116 1; input_event 1 114 1] H1))).
Defined.

Lemma submissions_never_pending_sample :
  initial sample_state /\
  In (Got (queue_delayed_work 50) true)
     (calls (run (hdr := msm8996_headers) (fresh sample_state)
               [input_event 1 116 1; input_event 1 114 1])) /\
  true = true.
Proof.
  assert (H1 : initial sample_state) by (repeat split).
  assert (H2 : In (Got (queue_delayed_work 50) true)
                 (calls (run (hdr := msm8996_headers) (fresh sample_state)
                           [input_event 1 116 1; input_event 1 114 1])))
    by (vm_compute; tauto).
  split; [exact H1|]. split; [exact H2|].
  exact (submissions_never_pending (hdr := msm8996_headers) sample_state
           [input_event 1 116 1; input_event 1 114 1] H1 _ H2).
Defined.

Lemma combo_broken_before_work_starts_sample :
  in_flight (krn (fresh sample_half_state)) = [] /\
  combo_complete (drv (fresh sample_half_state)) = false /\
  callbacks
    (calls
       (step (hdr := msm8996_headers)
          (step (hdr := msm8996_headers)
             (step (hdr := msm8996_headers) (fresh sample_half_state)
                (input_event 1 114 1)) timer_expires)
          (input_event 1 116 0))) = [].
Proof.
  assert (H1 : in_flight (krn (fresh sample_half_state)) = []) by reflexivity.
  assert (H2 : combo_complete (drv (fresh sample_half_state)) = false)
    by (vm_compute; reflexivity).
  assert (H3 : combo_complete
                 (drv (step (hdr := msm8996_headers) (fresh sample_half_state)
                         (input_event 1 114 1))) = true)
    by (vm_compute; reflexivity).
  assert (H4 : combo_complete
                 (drv (step (hdr := msm8996_headers)
                         (if true
                          then step (hdr := msm8996_headers)
                                 (step (hdr := msm8996_headers)
                                    (fresh sample_half_state)
                                    (input_event 1 114 1)) timer_expires
                          else step (hdr := msm8996_headers)
                                 (fresh sample_half_state)
                                 (input_event 1 114 1))
                         (input_event 1 116 0))) = false)
    by (vm_compute; reflexivity).
  split; [exact H1|]. split; [exact H2|].
  exact (proj1 (proj2 (proj2
           (combo_broken_before_work_starts (hdr := msm8996_headers)
              (fresh sample_half_state) 1 114 1 1 116 0 true H1 H2 H3 H4)))).
Defined.

Lemma combo_held_then_released_sample :
  in_flight (krn (fresh sample_half_state)) = [] /\
  combo_complete (drv (fresh sample_half_state)) = false /\
  ran (run (hdr := msm8996_headers)
         (run (hdr := msm8996_headers) (fresh sample_half_state)
            [input_event 1 114 1; timer_expires; worker_takes; worker_runs])
         [input_event 1 116 0; worker_takes; worker_runs]) =
    [key_down_work; key_up_work].
Proof.
  assert (H1 : in_flight (krn (fresh sample_half_state)) = []) by reflexivity.
  assert (H2 : combo_complete (drv (fresh sample_half_state)) = false)
    by (vm_compute; reflexivity).
  assert (H3 : combo_complete
                 (drv (step (hdr := msm8996_headers) (fresh sample_half_state)
                         (input_event 1 114 1))) = true)
    by (vm_compute; reflexivity).
  assert (H4 : combo_complete
                 (drv (step (hdr := msm8996_headers)
                         (run (hdr := msm8996_headers)
                            (fresh sample_half_state)
                            [input_event 1 114 1; timer_expires; worker_takes;
                             worker_runs])
                         (input_event 1 116 0))) = false)
    by (vm_compute; reflexivity).
  split; [exact H1|]. split; [exact H2|].
  exact (proj1 (proj2 (proj2 (proj2
           (combo_held_then_released (hdr := msm8996_headers)
              (fresh sample_half_state) 1 114 1 1 116 0 H1 H2 H3 H4))))).
Defined.

Lemma keycombo_connect_succeeds_iff_sample :
  0 <= KEY_MAX (Headers := msm8996_headers) /\
  ENODEV (Headers := msm8996_headers) <> 0 /\
  ENOMEM (Headers := msm8996_headers) <> 0 /\
  (fst (keycombo_connect (hdr := msm8996_headers) sample_state (2 ^ 116)
          {| handle_allocated := true; register_handle_ret := 0;
             open_device_ret := 0 |}) = 0 <->
   (exists c, 0 <= c < KEY_MAX (Headers := msm8996_headers) /\
              test_bit c (keybit sample_state) = true /\
              test_bit c (2 ^ 116) = true) /\
   true = true /\ 0 = 0 /\ 0 = 0).
Proof.
  assert (H1 : 0 <= KEY_MAX (Headers := msm8996_headers))
    by (vm_compute; discriminate).
  assert (H2 : ENODEV (Headers := msm8996_headers) <> 0) by (cbn; lia).
  assert (H3 : ENOMEM (Headers := msm8996_headers) <> 0) by (cbn; lia).
  repeat (split; [assumption|]).
  exact (keycombo_connect_succeeds_iff (hdr := msm8996_headers) sample_state
           (2 ^ 116)
           {| handle_allocated := true; register_handle_ret := 0;
              open_device_ret := 0 |} H1 H2 H3).
Defined.

Lemma keycombo_connect_ledger_sample :
  ENODEV (Headers := msm8996_headers) <> 0 /\
  ENOMEM (Headers := msm8996_headers) <> 0 /\
  ledger_after
    (map during_connect
       (snd (keycombo_connect (hdr := msm8996_headers) sample_state (2 ^ 116)
               {| handle_allocated := true; register_handle_ret := 0;
                  open_device_ret := -5 |})))
    (Some nothing_held) = Some nothing_held.
Proof.
  assert (H2 : ENODEV (Headers := msm8996_headers) <> 0) by (cbn; lia).
  assert (H3 : ENOMEM (Headers := msm8996_headers) <> 0) by (cbn; lia).
  repeat (split; [assumption|]).
  refine (proj1 (keycombo_connect_ledger (hdr := msm8996_headers) sample_state
                   (2 ^ 116)
                   {| handle_allocated := true; register_handle_ret := 0;
                      open_device_ret := -5 |} H2 H3) _).
  vm_compute. discriminate.
Defined.

Lemma keycombo_parse_dt_result_sample :
  0 < 22 /\ 0 < ENOMEM (Headers := msm8996_headers) /\
  outstanding
    (snd (keycombo_parse_dt (hdr := msm8996_headers) 22 0 sample_node
            kzalloced_pdata
            {| keys_down_allocated := true; keys_up_allocated := false |}))
    [] = [].
Proof.
  assert (H1 : 0 < 22) by lia.
  assert (H2 : 0 < ENOMEM (Headers := msm8996_headers)) by (cbn; lia).
  repeat (split; [assumption|]).
  refine (proj1 (proj2 (keycombo_parse_dt_result (hdr := msm8996_headers) 22 0
                          sample_node kzalloced_pdata
                          {| keys_down_allocated := true;
                             keys_up_allocated := false |} H1 H2)) _).
  vm_compute. discriminate.
Defined.

Lemma keycombo_probe_pdev_parse_failure_sample :
  0 < 22 /\ 0 < ENOMEM (Headers := msm8996_headers) /\
  of_node sample_pdev = Some sample_node /\
  keycombo_probe_pdev (hdr := msm8996_headers) 22 0 sample_pdev true
    {| keys_down_allocated := true; keys_up_allocated := false |} sample_env =
    Failed (- 12).
Proof.
  assert (H1 : 0 < 22) by lia.
  assert (H2 : 0 < ENOMEM (Headers := msm8996_headers)) by (cbn; lia).
  assert (H3 : of_node sample_pdev = Some sample_node) by reflexivity.
  repeat (split; [assumption|]).
  refine (keycombo_probe_pdev_parse_failure (hdr := msm8996_headers) 22 0
            sample_pdev sample_node true
            {| keys_down_allocated := true; keys_up_allocated := false |}
            sample_env H1 H2 H3 _).
  right. vm_compute. discriminate.
Defined.

Lemma device_tree_instance_hears_nothing_sample :
  of_node reset_pdev = Some reset_node /\
  keycombo_probe_pdev (hdr := msm8996_headers) 22 0 reset_pdev true
    all_allocated sample_env =
    Probed (mk_state (2 ^ 116) 0 0 1 0 0 50 false false 0) /\
  ran (run (hdr := msm8996_headers)
         (fresh (mk_state (2 ^ 116) 0 0 1 0 0 50 false false 0))
         press_release_press) =
    [key_down_work; key_up_work; key_down_work] /\
  callbacks
    (calls (run (hdr := msm8996_headers)
              (fresh (mk_state (2 ^ 116) 0 0 1 0 0 50 false false 0))
              press_release_press)) = [].
Proof.
  assert (H1 : of_node reset_pdev = Some reset_node) by reflexivity.
  assert (H2 : keycombo_probe_pdev (hdr := msm8996_headers) 22 0 reset_pdev
                 true all_allocated sample_env =
               Probed (mk_state (2 ^ 116) 0 0 1 0 0 50 false false 0))
    by (vm_compute; reflexivity).
  assert (H3 : ran (run (hdr := msm8996_headers)
                      (fresh (mk_state (2 ^ 116) 0 0 1 0 0 50 false false 0))
                      press_release_press) =
               [key_down_work; key_up_work; key_down_work])
    by (vm_compute; reflexivity).
  repeat (split; [assumption|]).
  exact (proj2 (proj2 (device_tree_instance_hears_nothing
                         (hdr := msm8996_headers) 22 0 reset_pdev reset_node
                         true all_allocated sample_env _ press_release_press
                         H1 H2))).
Defined.

Lemma device_tree_keys_need_terminator_sample :
  of_node unterminated_pdev = Some unterminated_node /\
  keycombo_parse_dt (hdr := msm8996_headers) 22 0 unterminated_node
    kzalloced_pdata all_allocated =
    (0, {| pdata_key_down_fn := false; pdata_key_up_fn := false;
           key_down_delay := 0; keys_up := Some [116; 114];
           keys_down := [116; 114] |},
     [kzalloc_keys keys_down_array 8 true;
      kzalloc_keys keys_up_array 8 true]) /\
  state_allocated sample_env = true /\
  keycombo_probe_pdev (hdr := msm8996_headers) 22 0 unterminated_pdev true
    all_allocated sample_env = Fault.
Proof.
  assert (H1 : of_node unterminated_pdev = Some unterminated_node)
    by reflexivity.
  assert (H2 : keycombo_parse_dt (hdr := msm8996_headers) 22 0 unterminated_node
                 kzalloced_pdata all_allocated =
               (0, {| pdata_key_down_fn := false; pdata_key_up_fn := false;
                      key_down_delay := 0; keys_up := Some [116; 114];
                      keys_down := [116; 114] |},
                [kzalloc_keys keys_down_array 8 true;
                 kzalloc_keys keys_up_array 8 true]))
    by (vm_compute; reflexivity).
  assert (H3 : state_allocated sample_env = true) by reflexivity.
  repeat (split; [assumption|]).
  refine (device_tree_keys_need_terminator (hdr := msm8996_headers) 22 0
            unterminated_pdev unterminated_node all_allocated sample_env
            _ _ H1 H2 _ H3).
  cbn. repeat constructor; discriminate.
Defined.

(** The counters on the sample instances. *)

(** Against C1 as stated: power is listed as down key and as up key;
    once it is pressed one listed down key has its pressed bit set, and
    [key_down] is still 0. *)
Lemma key_down_misses_overlapping_key :
  keycombo_probe (hdr := msm8996_headers) (Some overlap_pdata) sample_env =
    Probed (mk_state (2 ^ 116 + 2 ^ 114) (2 ^ 116) 0 2 0 0 50 true true 0) /\
  key_down
    (result_state
       (keycombo_event (hdr := msm8996_headers)
          (mk_state (2 ^ 116 + 2 ^ 114) (2 ^ 116) 0 2 0 0 50 true true 0)
          1 116 1 idle_kernel)) = 0 /\
  pressed_count (hdr := msm8996_headers)
    (fun c => listed c (kept (hdr := msm8996_headers) [116; 114]))
    (key (result_state
            (keycombo_event (hdr := msm8996_headers)
               (mk_state (2 ^ 116 + 2 ^ 114) (2 ^ 116) 0 2 0 0 50 true true 0)
               1 116 1 idle_kernel))) = 1.
Proof. repeat split; vm_compute; reflexivity. Qed.

Lemma counters_track_listed_keys_sample :
  KEY_MAX (Headers := msm8996_headers) <= INT_MAX /\
  keycombo_probe (hdr := msm8996_headers) (Some sample_pdata) sample_env =
    Probed sample_state /\
  (forall c, In c (kept (hdr := msm8996_headers) [116; 114]) ->
             ~ In c (kept (hdr := msm8996_headers) [115])) /\
  key_down
    (result_state
       (keycombo_event (hdr := msm8996_headers) sample_state 1 116 1
                       idle_kernel)) =
  pressed_count (hdr := msm8996_headers)
    (fun c => listed c (kept (hdr := msm8996_headers) [116; 114]))
    (key (result_state
            (keycombo_event (hdr := msm8996_headers) sample_state 1 116 1
                            idle_kernel))) /\
  key_down
    (result_state
       (keycombo_event (hdr := msm8996_headers) sample_state 1 116 1
                       idle_kernel)) = 1.
Proof.
  assert (H1 : KEY_MAX (Headers := msm8996_headers) <= INT_MAX)
    by (vm_compute; discriminate).
  assert (H2 : keycombo_probe (hdr := msm8996_headers) (Some sample_pdata)
                 sample_env = Probed sample_state)
    by (vm_compute; reflexivity).
  assert (H3 : forall c, In c (kept (hdr := msm8996_headers) [116; 114]) ->
                         ~ In c (kept (hdr := msm8996_headers) [115])).
  { cbn. intros c [<-|[<-|[]]] [Heq|[]]; discriminate. }
  repeat (split; [assumption|]).
  split; [|vm_compute; reflexivity].
  exact (proj2 (proj2
           (counters_track_listed_keys (hdr := msm8996_headers) (K := kernel)
              sample_pdata sample_env [116; 114] [115] sample_state _
              H1 (proj1 sample_lists_terminated)
              (proj1 (proj2 sample_lists_terminated)) H2
              (reachable_event sample_state sample_state 1 116 1 idle_kernel
                 (reachable_start sample_state)))) H3).
Defined.
